(** * LogFileAnalyzer: the line-counting reader and the synthetic log generator

    A shallow embedding of [LogFileAnalyzer.cpp] and [LogGenerator.cpp],
    followed by the record parser and streaming aggregator that the
    specification describes, and the properties of all four. *)

From Stdlib Require Import ZArith Ascii String List Sorted Lia.
From Stdlib Require Import Decimal DecimalString DecimalZ DecimalPos.
From Equations Require Import Equations.
From stdpp Require Import gmap strings list fin_maps.

Open Scope string_scope.
Open Scope Z_scope.

(** ** Text: what [operator<<] prints and how a line splits *)

Module Text.

(** The character [std::endl] and ["\n"] put on the stream. *)
Definition newline : ascii := "010"%char.
Definition endl : string := String newline "".

Definition pipe : ascii := "|"%char.

(** [operator<<] on an [int] or a [long long]: the decimal numeral, with a
    leading minus sign for a negative value. *)
Definition dec (z : Z) : string := NilEmpty.string_of_int (Z.to_int z).

(** [std::fixed << std::setprecision(2)] on a non-negative [double]: the
    integer part, a point, and exactly two decimals.  The argument is the
    printed value in hundredths. *)
Definition two_digits (n : N) : string :=
  dec (Z.of_N (n / 10)) ++ dec (Z.of_N (n mod 10)).
Definition fixed2 (hundredths : N) : string :=
  dec (Z.of_N (hundredths / 100)) ++ "." ++ two_digits (hundredths mod 100).

Definition is_digit (c : ascii) : bool :=
  (48 <=? nat_of_ascii c)%nat && (nat_of_ascii c <=? 57)%nat.

Fixpoint all_chars (p : ascii -> bool) (s : string) : bool :=
  match s with
  | EmptyString => true
  | String c s' => p c && all_chars p s'
  end.

Definition all_digits (s : string) : bool := all_chars is_digit s.

(** A string is free of a character. *)
Definition free_of (sep : ascii) (s : string) : bool :=
  all_chars (fun c => negb (Ascii.eqb c sep)) s.

(** Splitting on a separator: a string with [k] separators has [k + 1]
    fields, empty ones included. *)
Fixpoint split (sep : ascii) (s : string) : list string :=
  match s with
  | EmptyString => [EmptyString]
  | String c s' =>
      if Ascii.eqb c sep then EmptyString :: split sep s'
      else match split sep s' with
           | x :: xs => String c x :: xs
           | [] => [String c EmptyString]
           end
  end.

(** The text before the first separator and the text after it. *)
Fixpoint split_first (sep : ascii) (s : string) : option (string * string) :=
  match s with
  | EmptyString => None
  | String c s' =>
      if Ascii.eqb c sep then Some (EmptyString, s')
      else match split_first sep s' with
           | Some (a, b) => Some (String c a, b)
           | None => None
           end
  end.

(** Splitting into at most [k] fields: the last field is the remainder of
    the string and is not split again. *)
Fixpoint splitn (k : nat) (sep : ascii) (s : string) : list string :=
  match k with
  | O => []
  | S O => [s]
  | S k' =>
      match split_first sep s with
      | Some (a, b) => a :: splitn k' sep b
      | None => [s]
      end
  end.

Definition field (i : nat) (line : string) : string :=
  nth i (split pipe line) EmptyString.

(** How often a character occurs in a string. *)
Fixpoint count_char (c : ascii) (s : string) : nat :=
  match s with
  | EmptyString => O
  | String d s' => (if Ascii.eqb d c then 1 else 0) + count_char c s'
  end.

(** The last character of a string, when it has one. *)
Fixpoint last_char (s : string) : option ascii :=
  match s with
  | EmptyString => None
  | String c s' => match s' with EmptyString => Some c | _ => last_char s' end
  end.

End Text.

(** ** LogFileAnalyzer.cpp *)

Module Analyzer.
Import Text.

(** What the program does to the outside world, in order. *)
Inductive event : Type :=
| Cout (text : string)
| Cerr (text : string)
| Open (path : string) (is_open : bool)
| Getline (line : option string).

(** A computation returns a value and the events it performed. *)
Definition IO (A : Type) : Type := (A * list event)%type.
Definition ret {A} (a : A) : IO A := (a, []).
Definition bind {A B} (m : IO A) (f : A -> IO B) : IO B :=
  let '(a, t) := m in let '(b, t') := f a in (b, (t ++ t')%list).
Definition emit (e : event) : IO unit := (tt, [e]).

Declare Scope io_scope.
Delimit Scope io_scope with io.
Notation "x <- m ;; k" := (bind m (fun x => k))
  (at level 62, m at next level, right associativity, only parsing) : io_scope.
Notation "m ;;; k" := (bind m (fun _ => k))
  (at level 62, right associativity, only parsing) : io_scope.

(** The file system: the bytes of the file at a path, when it can be
    opened for reading. *)
Definition filesystem : Type := string -> option string.

(** [argv]: the program name and the arguments after it, so [argc >= 1]
    as in every hosted start-up. *)
Record invocation : Type := { prog : string; args : list string }.
Definition argc (inv : invocation) : Z := Z.of_nat (S (List.length (args inv))).

(** The characters up to the first newline, and what follows it. *)
Fixpoint take_line (s : string) : string :=
  match s with
  | EmptyString => EmptyString
  | String c s' => if Ascii.eqb c newline then EmptyString else String c (take_line s')
  end.
Fixpoint drop_line (s : string) : string :=
  match s with
  | EmptyString => EmptyString
  | String c s' => if Ascii.eqb c newline then s' else drop_line s'
  end.

(** [std::getline(stream, line)] on the unread part of the stream: it fails
    when nothing is left to extract; otherwise it yields the characters up
    to the next newline, consumes that newline, and succeeds (also on a
    last line without one). *)
Definition getline (stream : string) : option (string * string) :=
  match stream with
  | EmptyString => None
  | _ => Some (take_line stream, drop_line stream)
  end.

(** The lines of a file: the text between newlines; a final newline ends
    the last line and starts no new one. *)
Fixpoint file_lines (s : string) : list string :=
  match s with
  | EmptyString => []
  | String c s' =>
      if Ascii.eqb c newline then EmptyString :: file_lines s'
      else match file_lines s' with
           | l :: ls => String c l :: ls
           | [] => [String c EmptyString]
           end
  end.

Definition inspect {A} (a : A) : {b : A | a = b} := exist _ a eq_refl.

(** [while (std::getline(logFile, currentLine)) { lineCounter++; }] *)
Equations? read_loop (stream : string) (lineCounter : Z) : IO Z
  by wf (String.length stream) lt :=
  read_loop stream lineCounter with inspect (getline stream) => {
    | exist _ None _ := (emit (Getline None) ;;; ret lineCounter)%io
    | exist _ (Some (currentLine, rest)) _ :=
        (emit (Getline (Some currentLine)) ;;; read_loop rest (lineCounter + 1))%io
  }.
Proof.
  destruct stream as [|c s]; [discriminate|].
  match goal with H : getline _ = Some _ |- _ =>
    unfold getline in H; injection H as _ <- end.
  clear read_loop. revert c.
  induction s as [|d s IH]; intros c; simpl.
  - destruct (Ascii.eqb c newline); simpl; lia.
  - destruct (Ascii.eqb c newline); simpl; [lia|].
    specialize (IH d). simpl in IH. lia.
Qed.

Definition rule : string := "------------------------------------".

Definition main (fs : filesystem) (inv : invocation) : IO Z :=
  (if negb (argc inv =? 2) then
     emit (Cerr ("Error: Incorrect number of arguments." ++ endl)) ;;;
     emit (Cerr ("Usage: " ++ prog inv ++ " <path_to_log_file>" ++ endl)) ;;;
     ret 1
   else
     let logFilePath := nth 0 (args inv) EmptyString in
     emit (Cout ("Initializing Log File Analyzer..." ++ endl)) ;;;
     emit (Cout (rule ++ endl)) ;;;
     emit (Cout ("Target log file: " ++ logFilePath ++ endl)) ;;;
     match fs logFilePath with
     | None =>
         emit (Open logFilePath false) ;;;
         emit (Cerr ("Fatal Error: Could not open the log file at: " ++ logFilePath ++ endl)) ;;;
         ret 1
     | Some logFile =>
         emit (Open logFilePath true) ;;;
         emit (Cout ("File opened successfully. Starting analysis..." ++ endl)) ;;;
         lineCounter <- read_loop logFile 0 ;;
         emit (Cout ("Analysis finished." ++ endl)) ;;;
         emit (Cout ("Total lines processed: " ++ dec lineCounter ++ endl)) ;;;
         emit (Cout (rule ++ endl)) ;;;
         ret 0
     end)%io.

Definition exit_code {A} (r : IO A) : A := fst r.
Definition trace {A} (r : IO A) : list event := snd r.

(** The lines [std::getline] yields from a stream, one per successful
    call. *)
Definition lines_read (t : list event) : list string :=
  omap (fun e => match e with Getline (Some l) => Some l | _ => None end) t.

Definition opens (t : list event) : list string :=
  omap (fun e => match e with Open p _ => Some p | _ => None end) t.

Definition stderr_text (t : list event) : list string :=
  omap (fun e => match e with Cerr s => Some s | _ => None end) t.

Definition stdout_text (t : list event) : list string :=
  omap (fun e => match e with Cout s => Some s | _ => None end) t.

Definition getline_calls (t : list event) : nat :=
  List.length (omap (fun e => match e with Getline r => Some r | _ => None end) t).

(** A file is unterminated when it is not empty and its last character is
    not a newline. *)
Definition unterminated (s : string) : bool :=
  match last_char s with
  | Some c => negb (Ascii.eqb c newline)
  | None => false
  end.

(** Lines written back, each followed by a newline. *)
Fixpoint join_lines (ls : list string) : string :=
  match ls with
  | [] => EmptyString
  | l :: ls' => l ++ endl ++ join_lines ls'
  end.

(** A file system with one file, of two lines, the second without a final
    newline. *)
Definition two_line_file : filesystem :=
  fun path => if String.eqb path "a.log" then Some ("x" ++ endl ++ "y") else None.

End Analyzer.

(** ** LogGenerator.cpp *)

Module Generator.
Import Text.

(** The local variables of one iteration of the generating loop. *)
Record entry : Type := {
  timestamp : Z;
  ip : string;
  user : string;
  action : string;
  status : string;
  latency : Z;
  details : string
}.

(** What a run leaves behind. *)
Record outcome : Type := {
  exit_code : Z;
  sample_log : option string;
  cout : string;
  cerr : string
}.

Definition numberOfLinesToGenerate : Z := 100000.
Definition outputFilename : string := "sample.log".

Definition ip_addresses : list string :=
  ["203.0.113.89"; "198.51.100.2"; "192.168.1.10"; "10.0.0.5"; "172.16.31.45"; "10.10.10.10"].
Definition user_ids : list string :=
  ["user_alpha"; "user_beta"; "quant_gamma"; "trader_delta"; "risk_epsilon"; "admin_zeta"].
Definition actions : list string :=
  ["LOGIN"; "LOGOUT"; "TRADE_EXECUTE"; "DATA_QUERY"; "ORDER_CANCEL"; "FAILED_LOGIN"].
Definition statuses : list string := ["SUCCESS"; "FAILURE"; "PENDING"].
Definition trade_symbols : list string := ["AAPL"; "GOOG"; "MSFT"; "AMZN"; "TSLA"; "NVDA"].

Definition initialTimestamp : Z := 1672531200.

(** The text of one line as the chain of [<<] writes it, without the
    final newline. *)
Definition format_line (e : entry) : string :=
  dec (timestamp e) ++ "|" ++ ip e ++ "|" ++ user e ++ "|" ++ action e ++ "|"
    ++ status e ++ "|" ++ dec (latency e) ++ "ms|" ++ details e.

Definition write_line (e : entry) : string := format_line e ++ endl.

Fixpoint write_lines (es : list entry) : string :=
  match es with
  | [] => EmptyString
  | e :: es' => write_line e ++ write_lines es'
  end.

(** Each timestamp exceeds the one before it by 1 to 5. *)
Fixpoint steps_within (previous : Z) (ts : list Z) : Prop :=
  match ts with
  | [] => True
  | t :: ts' => 1 <= t - previous <= 5 /\ steps_within t ts'
  end.

(** What one iteration guarantees about its entry, given the timestamp
    it started from. *)
Record drawn (previous : Z) (e : entry) : Prop := {
  drawn_timestamp : 1 <= timestamp e - previous <= 5;
  drawn_ip : In (ip e) ip_addresses;
  drawn_user : In (user e) user_ids;
  drawn_action : In (action e) actions;
  drawn_status : In (status e) statuses;
  drawn_failed_login : action e = "FAILED_LOGIN" -> status e = "FAILURE";
  drawn_latency : 5 <= latency e <= 250;
  drawn_details_pipe : free_of pipe (details e) = true;
  drawn_details_newline : free_of newline (details e) = true
}.

Fixpoint chain (previous : Z) (es : list entry) : Prop :=
  match es with
  | [] => True
  | e :: es' => drawn previous e /\ chain (timestamp e) es'
  end.

(** The details the loop writes for an action: a symbol of the pool, a
    quantity from 10 to 500 and a price with two decimals for a trade, the
    error code for a failed login, and the placeholder otherwise. *)
Definition details_shape (action details : string) : Prop :=
  if String.eqb action "TRADE_EXECUTE" then
    exists (symbol : string) (quantity : Z) (price : N),
      In symbol trade_symbols /\ 10 <= quantity <= 500 /\
      details = "Symbol:" ++ symbol ++ ",Quantity:" ++ dec quantity
                  ++ ",Price:" ++ fixed2 price
  else if String.eqb action "FAILED_LOGIN" then
    details = "ErrorCode:401_UNAUTHORIZED"
  else
    details = "Details:N/A".

Section WithEngine.

(** The state of [std::mt19937]. *)
Variable engine : Type.

(** [std::uniform_int_distribution<>(a, b)] applied to the engine. *)
Variable uniform_int : Z -> Z -> engine -> Z * engine.

(** [std::uniform_real_distribution<>(100.0, 5000.0)] applied to the
    engine, as the number of hundredths that [std::fixed] with precision
    2 prints for the value drawn. *)
Variable price_dist : engine -> N * engine.

(** A computation that draws from the engine. *)
Definition Rand (A : Type) : Type := engine -> A * engine.
Definition ret {A} (a : A) : Rand A := fun g => (a, g).
Definition bind {A B} (m : Rand A) (f : A -> Rand B) : Rand B :=
  fun g => let '(a, g') := m g in f a g'.

Notation "x <- m ;; k" := (bind m (fun x => k))
  (at level 62, m at next level, right associativity, only parsing).

(** [vec[distrib(gen)]] with [distrib(0, vec.size() - 1)]; every pool of
    the program is non-empty. *)
Definition getRandomElement (vec : list string) : Rand string :=
  i <- uniform_int 0 (Z.of_nat (List.length vec) - 1) ;;
  ret (nth (Z.to_nat i) vec EmptyString).

(** The context-specific details; the three draws of a trade are made
    in the order the [<<] chain names them. *)
Definition draw_details (action : string) : Rand string :=
  if String.eqb action "TRADE_EXECUTE" then
    symbol <- getRandomElement trade_symbols ;;
    quantity <- uniform_int 10 500 ;;
    price <- price_dist ;;
    ret ("Symbol:" ++ symbol ++ ",Quantity:" ++ dec quantity ++ ",Price:" ++ fixed2 price)
  else if String.eqb action "FAILED_LOGIN" then
    ret "ErrorCode:401_UNAUTHORIZED"
  else
    ret "Details:N/A".

(** The body of the [for] loop. *)
Definition iteration (startTimestamp : Z) : Rand entry :=
  increment <- uniform_int 1 5 ;;
  let startTimestamp := startTimestamp + increment in
  ip <- getRandomElement ip_addresses ;;
  user <- getRandomElement user_ids ;;
  action <- getRandomElement actions ;;
  status <- (if String.eqb action "FAILED_LOGIN" then ret "FAILURE"
             else getRandomElement statuses) ;;
  latency <- uniform_int 5 250 ;;
  details <- draw_details action ;;
  ret {| timestamp := startTimestamp; ip := ip; user := user; action := action;
         status := status; latency := latency; details := details |}.

(** [count] iterations of the loop, starting from [startTimestamp]. *)
Fixpoint generate (count : nat) (startTimestamp : Z) : Rand (list entry) :=
  match count with
  | O => ret []
  | S count' =>
      e <- iteration startTimestamp ;;
      es <- generate count' (timestamp e) ;;
      ret (e :: es)
  end.

Definition main (can_write : bool) (random_engine : engine) : outcome :=
  if negb can_write then
    {| exit_code := 1; sample_log := None; cout := EmptyString;
       cerr := "Error: Could not open file for writing: " ++ outputFilename ++ endl |}
  else
    let '(es, _) :=
      generate (Z.to_nat numberOfLinesToGenerate) initialTimestamp random_engine in
    {| exit_code := 0; sample_log := Some (write_lines es);
       cout := "Successfully generated " ++ dec numberOfLinesToGenerate
                 ++ " lines in '" ++ outputFilename ++ "'" ++ endl;
       cerr := EmptyString |}.

(** The entries of a run of [count] iterations and the lines written for
    them. *)
Definition entries (count : nat) (random_engine : engine) : list entry :=
  fst (generate count initialTimestamp random_engine).

Definition lines (count : nat) (random_engine : engine) : list string :=
  map format_line (entries count random_engine).

End WithEngine.

(** A linear congruential engine, to run the generator on. *)
Definition lcg_next (g : Z) : Z := (g * 1103515245 + 12345) mod 2147483648.
Definition lcg_uniform_int (a b : Z) (g : Z) : Z * Z :=
  (a + g mod (b - a + 1), lcg_next g).
Definition lcg_price (g : Z) : N * Z :=
  (10000 + Z.to_N (g mod 490000), lcg_next g)%N.

(** The file that engine writes in three iterations from the seed 42. *)
Definition lcg_sample_log : string :=
  write_lines (entries Z lcg_uniform_int lcg_price 3 42).

(** The first line that engine yields from the seed 42. *)
Definition first_line : string :=
  "1672531203|10.0.0.5|quant_gamma|FAILED_LOGIN|FAILURE|231ms|ErrorCode:401_UNAUTHORIZED".

End Generator.

(** ** The record parser of the specification (section 4.1)

    Neither source file contains a parser: the definitions of this module
    follow the words of the specification. *)

Module Parser.
Import Text.

(** Modelled from the spec: the error taxonomy of section 7; the
    repository declares no such type. *)
Inductive ErrorKind : Type :=
| MalformedFieldCount
| InvalidTimestamp
| InvalidLatency.

(** Modelled from the spec: the ParseError value of section 3 (line
    number, raw text, kind); the repository declares no such type. *)
Record ParseError : Type := {
  line_number : Z;
  raw_line : string;
  kind : ErrorKind
}.

(** Modelled from the spec: the LogRecord value of section 3; the details
    are kept as the raw field and turned into a mapping on demand.  The
    repository declares no such type. *)
Record LogRecord : Type := {
  timestamp : Z;
  source_ip : string;
  user_id : string;
  action : string;
  status : string;
  latency_ms : Z;
  details_field : string
}.

(** Modelled from the spec: the result of [parse], "LogRecord |
    ParseError". *)
Abbreviation ParseResult := (LogRecord + ParseError)%type.

(** Modelled from the spec: "must parse as a non-negative integer" is
    read as a non-empty string of decimal digits; the repository has no
    integer parser. *)
Definition parse_nonneg (s : string) : option Z :=
  match s with
  | EmptyString => None
  | _ => match NilEmpty.uint_of_string s with
         | Some d => Some (Z.of_uint d)
         | None => None
         end
  end.

(** Modelled from the spec: stripping "the trailing literal ms suffix
    (case-sensitive)"; a string that does not end in ms has none to
    strip.  The repository has no such function. *)
Fixpoint strip_ms (s : string) : option string :=
  match s with
  | EmptyString => None
  | String c s' =>
      if String.eqb s "ms" then Some EmptyString
      else match strip_ms s' with
           | Some p => Some (String c p)
           | None => None
           end
  end.

(** Modelled from the spec: the latency field is [<int>ms]; the suffix is
    stripped and the rest parsed as an integer.  The repository has no
    such function. *)
Definition parse_latency (s : string) : option Z :=
  match strip_ms s with
  | Some p => parse_nonneg p
  | None => None
  end.

(** Modelled from the spec: the on-demand details accessor, "splitting on
    [,] then on the first [:] within each comma-separated token; tokens
    without [:] are stored with an empty value".  A later token with the
    same key replaces an earlier one.  The repository has no such
    function. *)
Definition details_token (m : gmap string string) (token : string) : gmap string string :=
  match split_first ":"%char token with
  | Some (k, v) => <[k := v]> m
  | None => <[token := EmptyString]> m
  end.

(** Modelled from the spec: the mapping of a whole details field, token by
    token. *)
Definition details_of_field (field : string) : gmap string string :=
  foldl details_token ∅ (split ","%char field).

(** Modelled from the spec: the explicit on-demand accessor of section 9
    on a record. *)
Definition details (r : LogRecord) : gmap string string :=
  details_of_field (details_field r).

Section WithEmptyFieldPolicy.

(** The specification accepts every non-empty ip and user field and
    names no outcome for an empty one: what the parser answers then is
    left open here. *)
Variable on_empty_field : LogRecord -> Z -> string -> ParseResult.

(** Modelled from the spec: [parse(line, line_number)] of section 4.1;
    the repository has no such function.  The line is split into at
    most 7 fields, the seventh being the remainder after the sixth
    delimiter; the checks are made in the order the specification lists
    them. *)
Definition parse (line : string) (line_number : Z) : ParseResult :=
  match splitn 7 pipe line with
  | [f_timestamp; f_ip; f_user; f_action; f_status; f_latency; f_details] =>
      match parse_nonneg f_timestamp with
      | None => inr {| line_number := line_number; raw_line := line;
                       kind := InvalidTimestamp |}
      | Some ts =>
          match parse_latency f_latency with
          | None => inr {| line_number := line_number; raw_line := line;
                           kind := InvalidLatency |}
          | Some ms =>
              let r := {| timestamp := ts; source_ip := f_ip; user_id := f_user;
                          action := f_action; status := f_status; latency_ms := ms;
                          details_field := f_details |} in
              if String.eqb f_ip EmptyString || String.eqb f_user EmptyString
              then on_empty_field r line_number line
              else inl r
          end
      end
  | _ => inr {| line_number := line_number; raw_line := line;
                kind := MalformedFieldCount |}
  end.

(** Modelled from the spec: the input boundary of section 6, "a lazy,
    finite sequence of raw text lines ... and a parallel line-number
    counter starting at 1".  The repository has no such function. *)
Fixpoint parse_from (line_number : Z) (lines : list string) : list ParseResult :=
  match lines with
  | [] => []
  | line :: rest => parse line line_number :: parse_from (line_number + 1) rest
  end.

(** Modelled from the spec: the same, with the counter at its start. *)
Definition parse_all (lines : list string) : list ParseResult := parse_from 1 lines.

End WithEmptyFieldPolicy.

(** The records and the errors among the results of a stream. *)
Definition records (results : list ParseResult) : list LogRecord :=
  omap (fun x => match x with inl r => Some r | inr _ => None end) results.
Definition errors (results : list ParseResult) : list ParseError :=
  omap (fun x => match x with inl _ => None | inr e => Some e end) results.

(** One way to settle the open case: an empty ip or user field is taken as
    it is. *)
Definition accept_empty_field (r : LogRecord) (line_number : Z) (line : string)
  : ParseResult := inl r.

End Parser.

(** ** The streaming aggregator of the specification (section 4.2)

    Neither source file contains an aggregator: the definitions of this
    module follow the words of the specification. *)

Module Aggregator.

(** Modelled from the spec: the running numeric summary of the latencies,
    kept in constant space (how many, the least, the greatest, the sum
    from which the mean follows); the percentile estimator is left to the
    implementation by the specification and is not part of the model.  The
    repository declares no such type. *)
Record LatencySummary : Type := {
  observed : N;
  least : option Z;
  greatest : option Z;
  sum : Z
}.

(** Modelled from the spec: the AggregateSnapshot value of section 3; the
    repository declares no such type. *)
Record AggregateSnapshot : Type := {
  per_action : gmap string N;
  per_status : gmap string N;
  latency : LatencySummary;
  parse_errors : N;
  total_lines : N
}.

(** Modelled from the spec: the single accumulating state, before any
    line. *)
Definition empty : AggregateSnapshot :=
  {| per_action := ∅; per_status := ∅;
     latency := {| observed := 0; least := None; greatest := None; sum := 0 |};
     parse_errors := 0; total_lines := 0 |}.

(** Modelled from the spec: counting a value under its own key (the
    open-set tolerance of section 9). *)
Definition bump (key : string) (m : gmap string N) : gmap string N :=
  <[key := (default 0 (m !! key) + 1)%N]> m.

(** Modelled from the spec: folding one latency into the running
    summary. *)
Definition observe (ms : Z) (s : LatencySummary) : LatencySummary :=
  {| observed := (observed s + 1)%N;
     least := Some (match least s with Some l => Z.min l ms | None => ms end);
     greatest := Some (match greatest s with Some g => Z.max g ms | None => ms end);
     sum := sum s + ms |}.

(** Modelled from the spec: [ingest(item)] of section 4.2, total on
    records and on errors; the repository has no such function. *)
Definition ingest (item : Parser.ParseResult) (a : AggregateSnapshot) : AggregateSnapshot :=
  match item with
  | inl r =>
      {| per_action := bump (Parser.action r) (per_action a);
         per_status := bump (Parser.status r) (per_status a);
         latency := observe (Parser.latency_ms r) (latency a);
         parse_errors := parse_errors a;
         total_lines := (total_lines a + 1)%N |}
  | inr _ =>
      {| per_action := per_action a;
         per_status := per_status a;
         latency := latency a;
         parse_errors := (parse_errors a + 1)%N;
         total_lines := (total_lines a + 1)%N |}
  end.

(** Modelled from the spec: [snapshot()], a read of the running state at
    any time. *)
Definition snapshot (a : AggregateSnapshot) : AggregateSnapshot := a.

(** Modelled from the spec: the number of records parsed, which the
    invariant of section 3 names; it is the number of latencies folded
    into the summary. *)
Definition records_parsed (s : AggregateSnapshot) : N := observed (latency s).

(** The state after a sequence of [ingest] calls, made in order. *)
Definition ingest_all (items : list Parser.ParseResult) (a : AggregateSnapshot) : AggregateSnapshot :=
  foldl (fun acc item => ingest item acc) a items.

End Aggregator.

(** * Properties *)

(** ** Text *)

Section TextFacts.
Import Text.

Lemma all_chars_app (p : ascii -> bool) (a b : string) :
  all_chars p (a ++ b) = all_chars p a && all_chars p b.
Proof.
  induction a as [|c a IH]; simpl; [reflexivity|].
  rewrite IH. now rewrite andb_assoc.
Qed.

Lemma free_of_app (sep : ascii) (a b : string) :
  free_of sep (a ++ b) = free_of sep a && free_of sep b.
Proof. apply all_chars_app. Qed.

Lemma split_nonempty (sep : ascii) (s : string) : split sep s <> [].
Proof.
  induction s as [|c s IH]; simpl; [discriminate|].
  destruct (Ascii.eqb c sep); [discriminate|].
  destruct (split sep s); [contradiction|discriminate].
Qed.

Lemma split_free (sep : ascii) (s : string) :
  free_of sep s = true -> split sep s = [s].
Proof.
  unfold free_of.
  induction s as [|c s IH]; cbn [all_chars split]; [reflexivity|].
  intros [Hc Hs]%andb_prop.
  apply negb_true_iff in Hc. rewrite Hc, (IH Hs). reflexivity.
Qed.

Lemma split_app (sep : ascii) (a b : string) :
  free_of sep a = true -> split sep (a ++ String sep b) = a :: split sep b.
Proof.
  unfold free_of.
  induction a as [|c a IH]; intros H; simpl in *.
  - now rewrite Ascii.eqb_refl.
  - apply andb_prop in H as [Hc Ha].
    apply negb_true_iff in Hc. rewrite Hc, (IH Ha). reflexivity.
Qed.

Lemma free_of_digits (sep : ascii) (s : string) :
  is_digit sep = false -> all_digits s = true -> free_of sep s = true.
Proof.
  intros Hsep. unfold free_of, all_digits.
  induction s as [|c s IH]; cbn [all_chars]; [reflexivity|].
  intros [Hc Hs]%andb_prop. rewrite (IH Hs), andb_true_r.
  apply negb_true_iff, Ascii.eqb_neq. intros ->. congruence.
Qed.

Lemma uint_all_digits (d : uint) : all_digits (NilEmpty.string_of_uint d) = true.
Proof. induction d; simpl; auto. Qed.

Lemma dec_nonneg (z : Z) :
  0 <= z -> exists d : uint, d <> Nil /\ dec z = NilEmpty.string_of_uint d.
Proof.
  intros Hz. unfold dec. destruct z as [|p|p]; [| |lia]; simpl.
  - exists (D0 Nil). split; [discriminate|reflexivity].
  - exists (Pos.to_uint p). split; [|reflexivity].
    intros E. pose proof (DecimalPos.Unsigned.of_to p) as H.
    rewrite E in H. discriminate.
Qed.

Lemma dec_all_digits (z : Z) : 0 <= z -> all_digits (dec z) = true.
Proof. intros [d [_ ->]]%dec_nonneg. apply uint_all_digits. Qed.

Lemma dec_not_empty (z : Z) : dec z <> EmptyString.
Proof.
  assert (U : forall d, d <> Nil -> NilEmpty.string_of_uint d <> EmptyString)
    by (intros [] ?; simpl; congruence).
  destruct (Z_le_gt_dec 0 z) as [Hz|Hz].
  - destruct (dec_nonneg z Hz) as [d [Hd ->]]. now apply U.
  - destruct z; try lia. unfold dec. simpl. discriminate.
Qed.

Lemma dec_free_of (sep : ascii) (z : Z) :
  is_digit sep = false -> sep <> "-"%char -> free_of sep (dec z) = true.
Proof.
  intros Hd Hm. destruct z as [|p|p]; unfold dec; simpl.
  - now apply free_of_digits.
  - apply free_of_digits; [assumption|apply uint_all_digits].
  - change (String "-" ?s) with ("-" ++ s). rewrite free_of_app.
    rewrite (free_of_digits sep _ Hd (uint_all_digits _)), andb_true_r.
    change (free_of sep "-") with (negb (Ascii.eqb "-" sep) && true).
    apply Ascii.eqb_neq in Hm. rewrite Ascii.eqb_sym in Hm.
    now rewrite Hm.
Qed.

Lemma fixed2_free_of (sep : ascii) (h : N) :
  is_digit sep = false -> sep <> "."%char -> free_of sep (fixed2 h) = true.
Proof.
  intros Hd Hp. unfold fixed2, two_digits.
  assert (H : forall n, free_of sep (dec (Z.of_N n)) = true)
    by (intros n; apply free_of_digits, dec_all_digits, N2Z.is_nonneg; exact Hd).
  rewrite !free_of_app, !H.
  change (free_of sep ".") with (negb (Ascii.eqb "." sep) && true).
  apply Ascii.eqb_neq in Hp. rewrite Ascii.eqb_sym in Hp.
  now rewrite Hp.
Qed.

Lemma split_first_none (sep : ascii) (s : string) :
  split_first sep s = None -> split sep s = [s].
Proof.
  induction s as [|c s IH]; simpl; [reflexivity|].
  destruct (Ascii.eqb c sep); [discriminate|].
  destruct (split_first sep s) as [[a b]|]; [discriminate|].
  intros _. now rewrite IH.
Qed.

Lemma split_first_some (sep : ascii) (s a b : string) :
  split_first sep s = Some (a, b) -> split sep s = a :: split sep b.
Proof.
  revert a. induction s as [|c s IH]; simpl; [discriminate|]. intros a.
  destruct (Ascii.eqb c sep); [now intros [= <- <-]|].
  destruct (split_first sep s) as [[a' b']|]; [|discriminate].
  intros [= <- <-]. now rewrite (IH a' eq_refl).
Qed.

Lemma splitn_length (k : nat) (sep : ascii) (s : string) :
  List.length (splitn k sep s) = Nat.min k (List.length (split sep s)).
Proof.
  revert s. induction k as [|k IH]; intros s; [reflexivity|].
  assert (L : forall t, (1 <= List.length (split sep t))%nat).
  { intros t. pose proof (split_nonempty sep t).
    destruct (split sep t); [contradiction|simpl; lia]. }
  destruct k as [|k].
  - specialize (L s). cbn [splitn List.length]. lia.
  - change (splitn (S (S k)) sep s)
      with (match split_first sep s with
            | Some (a, b) => a :: splitn (S k) sep b
            | None => [s]
            end).
    destruct (split_first sep s) as [[a b]|] eqn:E.
    + rewrite (split_first_some _ _ _ _ E). cbn [List.length]. rewrite IH. lia.
    + rewrite (split_first_none _ _ E). reflexivity.
Qed.

Lemma append_assoc (a b c : string) : (a ++ b) ++ c = a ++ b ++ c.
Proof.
  induction a as [|x a IH]; [reflexivity|].
  change (String x ((a ++ b) ++ c) = String x (a ++ b ++ c)). now rewrite IH.
Qed.

Lemma split_field (a b : string) :
  free_of pipe a = true -> split pipe (a ++ "|" ++ b) = a :: split pipe b.
Proof. exact (split_app pipe a b). Qed.

Lemma split_latency_field (a b : string) :
  free_of pipe a = true ->
  split pipe (a ++ "ms|" ++ b) = (a ++ "ms") :: split pipe b.
Proof.
  intros Ha. change (a ++ "ms|" ++ b) with (a ++ "ms" ++ String pipe b).
  rewrite <- append_assoc. apply split_app.
  rewrite free_of_app, Ha. reflexivity.
Qed.

End TextFacts.

(** ** The analyzer *)

Section AnalyzerFacts.
Import Text Analyzer.

Lemma file_lines_getline (stream line rest : string) :
  getline stream = Some (line, rest) ->
  file_lines stream = line :: file_lines rest.
Proof.
  destruct stream as [|c s]; [discriminate|].
  unfold getline. intros [= <- <-]. revert c.
  induction s as [|d s IH]; intros c.
  - simpl. now destruct (Ascii.eqb c newline).
  - specialize (IH d).
    change (file_lines (String c (String d s)))
      with (if Ascii.eqb c newline then EmptyString :: file_lines (String d s)
            else match file_lines (String d s) with
                 | l :: ls => String c l :: ls
                 | [] => [String c EmptyString]
                 end).
    change (take_line (String c (String d s)))
      with (if Ascii.eqb c newline then EmptyString
            else String c (take_line (String d s))).
    change (drop_line (String c (String d s)))
      with (if Ascii.eqb c newline then String d s else drop_line (String d s)).
    destruct (Ascii.eqb c newline); [reflexivity|].
    now rewrite IH.
Qed.

Lemma getline_none (stream : string) : getline stream = None -> stream = EmptyString.
Proof. now destruct stream. Qed.

Lemma read_loop_spec (stream : string) (n : Z) :
  read_loop stream n =
    (n + Z.of_nat (List.length (file_lines stream)),
     (map (fun l => Getline (Some l)) (file_lines stream) ++ [Getline None])%list).
Proof.
  funelim (read_loop stream n).
  - match goal with IH : unit -> read_loop _ _ = _ |- _ =>
      unfold bind, emit; rewrite (IH tt) end.
    rewrite (file_lines_getline _ _ _ e). cbn [List.length map app].
    f_equal. lia.
  - rewrite (getline_none _ e). unfold bind, emit, ret. cbn.
    now rewrite Z.add_0_r.
Qed.

Lemma lines_read_app (t u : list event) :
  lines_read (t ++ u) = (lines_read t ++ lines_read u)%list.
Proof. apply omap_app. Qed.

Lemma lines_read_getlines (ls : list string) :
  lines_read (map (fun l => Getline (Some l)) ls) = ls.
Proof.
  induction ls as [|l ls IH]; [reflexivity|].
  change (l :: lines_read (map (fun l => Getline (Some l)) ls) = l :: ls).
  now rewrite IH.
Qed.

Lemma omap_getlines {A} (f : event -> option A) (ls : list string) :
  (forall r, f (Getline r) = None) ->
  omap f (map (fun l => Getline (Some l)) ls) = [].
Proof.
  intros Hf. induction ls as [|l ls IH]; [reflexivity|].
  cbn. rewrite Hf. exact IH.
Qed.

(** The trace of a run on a file that opens. *)
Lemma main_opened (fs : filesystem) (p path content : string) :
  fs path = Some content ->
  main fs {| prog := p; args := [path] |} =
    (0, ([Cout ("Initializing Log File Analyzer..." ++ endl);
          Cout (rule ++ endl);
          Cout ("Target log file: " ++ path ++ endl);
          Open path true;
          Cout ("File opened successfully. Starting analysis..." ++ endl)]
         ++ map (fun l => Getline (Some l)) (file_lines content)
         ++ [Getline None;
             Cout ("Analysis finished." ++ endl);
             Cout ("Total lines processed: "
                   ++ dec (Z.of_nat (List.length (file_lines content))) ++ endl);
             Cout (rule ++ endl)])%list).
Proof.
  intros Hfs. unfold main. cbn [argc args prog List.length nth negb Z.eqb Z.of_nat].
  change (Z.of_nat 2 =? 2) with true. cbn [negb].
  rewrite Hfs, read_loop_spec. unfold bind, emit, ret.
  cbn [app]. rewrite Z.add_0_l. f_equal. f_equal.
  rewrite <- !app_assoc. reflexivity.
Qed.

Lemma main_not_opened (fs : filesystem) (p path : string) :
  fs path = None ->
  main fs {| prog := p; args := [path] |} =
    (1, [Cout ("Initializing Log File Analyzer..." ++ endl);
         Cout (rule ++ endl);
         Cout ("Target log file: " ++ path ++ endl);
         Open path false;
         Cerr ("Fatal Error: Could not open the log file at: " ++ path ++ endl)]).
Proof.
  intros Hfs. unfold main. cbn [argc args prog List.length nth negb].
  change (Z.of_nat 2 =? 2) with true. cbn [negb].
  rewrite Hfs. reflexivity.
Qed.

Lemma main_usage (fs : filesystem) (inv : invocation) :
  argc inv <> 2 ->
  main fs inv =
    (1, [Cerr ("Error: Incorrect number of arguments." ++ endl);
         Cerr ("Usage: " ++ prog inv ++ " <path_to_log_file>" ++ endl)]).
Proof.
  intros Hargc. unfold main.
  apply Z.eqb_neq in Hargc. rewrite Hargc. reflexivity.
Qed.

(** [lineCounter] is a [long long]: it counts at most one line per byte of
    the file, so it stays far below [2^63]. *)
Lemma file_lines_length (s : string) :
  (List.length (file_lines s) <= String.length s)%nat.
Proof.
  induction s as [|c s IH]; [reflexivity|].
  cbn [file_lines String.length].
  destruct (Ascii.eqb c newline); [cbn [List.length]; lia|].
  destruct (file_lines s) as [|l ls]; cbn [List.length] in *; lia.
Qed.

Lemma argc_two (inv : invocation) :
  argc inv = 2 <-> exists path, args inv = [path].
Proof.
  unfold argc. destruct inv as [p [|a [|b l]]]; cbn [args List.length]; split.
  - lia.
  - intros [path [=]].
  - eauto.
  - reflexivity.
  - lia.
  - intros [path [=]].
Qed.

End AnalyzerFacts.

(** *** What the analyzer does on each kind of invocation *)

Section AnalyzerRuns.
Import Text Analyzer.

(** C2: on a file that can be opened the analyzer calls [std::getline]
    until it fails, the lines it yields are the lines of the file, the
    count it reports is their number, and the exit code is 0. *)
Theorem analyzer_counts_lines (fs : filesystem) (p path content : string) :
  fs path = Some content ->
  exit_code (main fs {| prog := p; args := [path] |}) = 0 /\
  lines_read (trace (main fs {| prog := p; args := [path] |})) = file_lines content /\
  getline_calls (trace (main fs {| prog := p; args := [path] |}))
    = S (List.length (file_lines content)) /\
  stdout_text (trace (main fs {| prog := p; args := [path] |})) =
    ["Initializing Log File Analyzer..." ++ endl;
     rule ++ endl;
     "Target log file: " ++ path ++ endl;
     "File opened successfully. Starting analysis..." ++ endl;
     "Analysis finished." ++ endl;
     "Total lines processed: "
       ++ dec (Z.of_nat (List.length
                 (lines_read (trace (main fs {| prog := p; args := [path] |})))))
       ++ endl;
     rule ++ endl].
Proof.
  intros Hfs. rewrite (main_opened fs p path content Hfs).
  unfold exit_code, trace. cbn [fst snd].
  assert (Hlines : forall ls : list string,
    lines_read ([Cout ("Initializing Log File Analyzer..." ++ endl);
                 Cout (rule ++ endl);
                 Cout ("Target log file: " ++ path ++ endl);
                 Open path true;
                 Cout ("File opened successfully. Starting analysis..." ++ endl)]
                ++ map (fun l => Getline (Some l)) ls
                ++ [Getline None;
                    Cout ("Analysis finished." ++ endl);
                    Cout ("Total lines processed: "
                          ++ dec (Z.of_nat (List.length ls)) ++ endl);
                    Cout (rule ++ endl)])%list = ls).
  { intros ls. rewrite !lines_read_app, lines_read_getlines.
    cbn. apply app_nil_r. }
  rewrite Hlines. repeat split.
  - unfold getline_calls. rewrite !omap_app, !length_app.
    assert (E : omap (fun e => match e with Getline r => Some r | _ => None end)
                  (map (fun l => Getline (Some l)) (file_lines content))
                = map Some (file_lines content)).
    { induction (file_lines content) as [|l t IH]; [reflexivity|].
      cbn. cbn in IH. now rewrite IH. }
    rewrite E, length_map. cbn. lia.
  - unfold stdout_text. rewrite !omap_app.
    rewrite omap_getlines by reflexivity. reflexivity.
Qed.

Lemma analyzer_counts_lines_witness :
  two_line_file "a.log" = Some ("x" ++ endl ++ "y") /\
  exit_code (main two_line_file {| prog := "analyzer"; args := ["a.log"] |}) = 0 /\
  lines_read (trace (main two_line_file {| prog := "analyzer"; args := ["a.log"] |}))
    = file_lines ("x" ++ endl ++ "y") /\
  getline_calls (trace (main two_line_file {| prog := "analyzer"; args := ["a.log"] |}))
    = S (List.length (file_lines ("x" ++ endl ++ "y"))) /\
  stdout_text (trace (main two_line_file {| prog := "analyzer"; args := ["a.log"] |})) =
    ["Initializing Log File Analyzer..." ++ endl;
     rule ++ endl;
     "Target log file: " ++ "a.log" ++ endl;
     "File opened successfully. Starting analysis..." ++ endl;
     "Analysis finished." ++ endl;
     "Total lines processed: "
       ++ dec (Z.of_nat (List.length
                 (lines_read (trace (main two_line_file
                                       {| prog := "analyzer"; args := ["a.log"] |})))))
       ++ endl;
     rule ++ endl].
Proof.
  split; [reflexivity|].
  apply (analyzer_counts_lines two_line_file "analyzer" "a.log" ("x" ++ endl ++ "y")).
  reflexivity.
Defined.

(** C3: given a path, the analyzer fails exactly when the file cannot be
    opened; it then writes the fatal error to stderr, calls
    [std::getline] not once, and returns 1.  Once the file is open nothing
    makes it fail: it returns 0 and writes nothing to stderr. *)
Theorem analyzer_fails_iff_not_opened (fs : filesystem) (p path : string) :
  (exit_code (main fs {| prog := p; args := [path] |}) = 1 <-> fs path = None) /\
  (exit_code (main fs {| prog := p; args := [path] |}) = 0 <-> fs path <> None) /\
  match fs path with
  | None =>
      stderr_text (trace (main fs {| prog := p; args := [path] |})) =
        ["Fatal Error: Could not open the log file at: " ++ path ++ endl] /\
      opens (trace (main fs {| prog := p; args := [path] |})) = [path] /\
      getline_calls (trace (main fs {| prog := p; args := [path] |})) = 0%nat /\
      lines_read (trace (main fs {| prog := p; args := [path] |})) = []
  | Some content =>
      stderr_text (trace (main fs {| prog := p; args := [path] |})) = [] /\
      opens (trace (main fs {| prog := p; args := [path] |})) = [path]
  end.
Proof.
  destruct (fs path) as [content|] eqn:Hfs.
  - rewrite (main_opened fs p path content Hfs).
    unfold exit_code, trace, stderr_text, opens. cbn [fst snd].
    rewrite !omap_app.
    rewrite !omap_getlines by reflexivity.
    repeat split; try discriminate; try reflexivity.
  - rewrite (main_not_opened fs p path Hfs).
    unfold exit_code, trace. cbn [fst snd].
    repeat split; try discriminate; try reflexivity; congruence.
Qed.

(** Every way the analyzer can fail: a wrong argument count, or a file that
    does not open. *)
Lemma analyzer_exit_code (fs : filesystem) (inv : invocation) :
  exit_code (main fs inv) =
    if negb (argc inv =? 2) then 1
    else match fs (nth 0 (args inv) EmptyString) with
         | None => 1
         | Some _ => 0
         end.
Proof.
  destruct (Z.eqb_spec (argc inv) 2) as [Hargc|Hargc]; cbn [negb].
  - apply argc_two in Hargc as [path Hargs].
    destruct inv as [p a]. cbn [args] in Hargs. subst a. cbn [args nth].
    destruct (fs path) as [content|] eqn:Hfs.
    + now rewrite (main_opened fs p path content Hfs).
    + now rewrite (main_not_opened fs p path Hfs).
  - now rewrite (main_usage fs inv Hargc).
Qed.

(** C4: with an argument count other than 2 the analyzer writes the error
    and the usage line to stderr and returns 1; it opens no file and
    writes nothing to stdout. *)
Theorem analyzer_rejects_wrong_argc (fs : filesystem) (inv : invocation) :
  argc inv <> 2 ->
  exit_code (main fs inv) = 1 /\
  trace (main fs inv) =
    [Cerr ("Error: Incorrect number of arguments." ++ endl);
     Cerr ("Usage: " ++ prog inv ++ " <path_to_log_file>" ++ endl)] /\
  opens (trace (main fs inv)) = [] /\
  getline_calls (trace (main fs inv)) = 0%nat /\
  stdout_text (trace (main fs inv)) = [].
Proof.
  intros Hargc. rewrite (main_usage fs inv Hargc).
  repeat split.
Qed.

Lemma analyzer_rejects_wrong_argc_witness :
  argc {| prog := "analyzer"; args := ["a.log"; "b.log"] |} <> 2 /\
  exit_code (main two_line_file {| prog := "analyzer"; args := ["a.log"; "b.log"] |}) = 1 /\
  trace (main two_line_file {| prog := "analyzer"; args := ["a.log"; "b.log"] |}) =
    [Cerr ("Error: Incorrect number of arguments." ++ endl);
     Cerr ("Usage: " ++ "analyzer" ++ " <path_to_log_file>" ++ endl)] /\
  opens (trace (main two_line_file {| prog := "analyzer"; args := ["a.log"; "b.log"] |})) = [] /\
  getline_calls (trace (main two_line_file {| prog := "analyzer"; args := ["a.log"; "b.log"] |})) = 0%nat /\
  stdout_text (trace (main two_line_file {| prog := "analyzer"; args := ["a.log"; "b.log"] |})) = [].
Proof.
  assert (H : argc {| prog := "analyzer"; args := ["a.log"; "b.log"] |} <> 2)
    by (vm_compute; discriminate).
  split; [exact H|].
  exact (analyzer_rejects_wrong_argc two_line_file
           {| prog := "analyzer"; args := ["a.log"; "b.log"] |} H).
Defined.

End AnalyzerRuns.

(** ** The generator *)

Section GeneratorFacts.
Import Text Generator.

Variable engine : Type.
Variable uniform_int : Z -> Z -> engine -> Z * engine.
Variable price_dist : engine -> N * engine.

(** The contract of [std::uniform_int_distribution]: a value of the closed
    interval it was built with. *)
Hypothesis uniform_int_range :
  forall (a b : Z) (g : engine), a <= b -> a <= fst (uniform_int a b g) <= b.

Local Abbreviation getRandomElement := (getRandomElement engine uniform_int).
Local Abbreviation draw_details := (draw_details engine uniform_int price_dist).
Local Abbreviation iteration := (iteration engine uniform_int price_dist).
Local Abbreviation generate := (generate engine uniform_int price_dist).
Local Abbreviation entries := (entries engine uniform_int price_dist).
Local Abbreviation lines := (lines engine uniform_int price_dist).

Lemma getRandomElement_In (vec : list string) (g : engine) :
  vec <> [] -> In (fst (getRandomElement vec g)) vec.
Proof.
  intros Hvec. unfold Generator.getRandomElement, bind, ret.
  assert (Hlen : 0 <= Z.of_nat (List.length vec) - 1)
    by (destruct vec; [contradiction|cbn [List.length]; lia]).
  pose proof (uniform_int_range _ _ g Hlen) as Hi.
  destruct (uniform_int 0 (Z.of_nat (List.length vec) - 1) g) as [i g'].
  cbn [fst] in *. apply nth_In. lia.
Qed.

Lemma pool_free (sep : ascii) (pool : list string) (s : string) :
  forallb (free_of sep) pool = true -> In s pool -> free_of sep s = true.
Proof. rewrite forallb_forall. auto. Qed.

Lemma draw_details_free (sep : ascii) (action : string) (g : engine) :
  sep = pipe \/ sep = newline ->
  free_of sep (fst (draw_details action g)) = true.
Proof.
  intros Hsep. unfold Generator.draw_details.
  destruct (String.eqb action "TRADE_EXECUTE").
  - unfold bind, ret.
    pose proof (getRandomElement_In trade_symbols g ltac:(discriminate)) as Hsym.
    destruct (getRandomElement trade_symbols g) as [symbol g1].
    destruct (uniform_int 10 500 g1) as [quantity g2].
    destruct (price_dist g2) as [price g3]. cbn [fst] in *.
    rewrite !free_of_app.
    assert (Hs : free_of sep symbol = true)
      by (apply (pool_free sep trade_symbols); [destruct Hsep as [-> | ->]; reflexivity|assumption]).
    rewrite Hs, dec_free_of, fixed2_free_of
      by (destruct Hsep as [-> | ->]; (reflexivity || discriminate)).
    destruct Hsep as [-> | ->]; reflexivity.
  - destruct (String.eqb action "FAILED_LOGIN");
      destruct Hsep as [-> | ->]; reflexivity.
Qed.

Lemma iteration_drawn (startTimestamp : Z) (g : engine) :
  drawn startTimestamp (fst (iteration startTimestamp g)).
Proof.
  unfold Generator.iteration, bind, ret.
  pose proof (uniform_int_range 1 5 g ltac:(lia)) as Hinc.
  destruct (uniform_int 1 5 g) as [increment g1].
  pose proof (getRandomElement_In ip_addresses g1 ltac:(discriminate)) as Hip.
  destruct (getRandomElement ip_addresses g1) as [ip g2].
  pose proof (getRandomElement_In user_ids g2 ltac:(discriminate)) as Huser.
  destruct (getRandomElement user_ids g2) as [user g3].
  pose proof (getRandomElement_In actions g3 ltac:(discriminate)) as Haction.
  destruct (getRandomElement actions g3) as [action g4].
  destruct (String.eqb_spec action "FAILED_LOGIN") as [Hfl|Hfl].
  - pose proof (uniform_int_range 5 250 g4 ltac:(lia)) as Hlat.
    destruct (uniform_int 5 250 g4) as [latency g5].
    pose proof (draw_details_free pipe action g5 (or_introl eq_refl)) as Hp.
    pose proof (draw_details_free newline action g5 (or_intror eq_refl)) as Hn.
    destruct (draw_details action g5) as [details g6]. cbn [fst] in *.
    constructor; cbn; auto; lia.
  - pose proof (getRandomElement_In statuses g4 ltac:(discriminate)) as Hstatus.
    destruct (getRandomElement statuses g4) as [status g5].
    pose proof (uniform_int_range 5 250 g5 ltac:(lia)) as Hlat.
    destruct (uniform_int 5 250 g5) as [latency g6].
    pose proof (draw_details_free pipe action g6 (or_introl eq_refl)) as Hp.
    pose proof (draw_details_free newline action g6 (or_intror eq_refl)) as Hn.
    destruct (draw_details action g6) as [details g7]. cbn [fst] in *.
    constructor; cbn; auto; try lia. intros; contradiction.
Qed.

Lemma generate_chain (count : nat) (startTimestamp : Z) (g : engine) :
  chain startTimestamp (fst (generate count startTimestamp g)).
Proof.
  revert startTimestamp g.
  induction count as [|count IH]; intros startTimestamp g; [exact I|].
  cbn [Generator.generate]. unfold bind, ret.
  pose proof (iteration_drawn startTimestamp g) as He.
  destruct (iteration startTimestamp g) as [e g1]. cbn [fst] in He.
  specialize (IH (timestamp e) g1).
  destruct (generate count (timestamp e) g1) as [es g2]. cbn [fst] in *.
  split; assumption.
Qed.

Lemma generate_length (count : nat) (startTimestamp : Z) (g : engine) :
  List.length (fst (generate count startTimestamp g)) = count.
Proof.
  revert startTimestamp g.
  induction count as [|count IH]; intros startTimestamp g; [reflexivity|].
  cbn [Generator.generate]. unfold bind, ret.
  destruct (iteration startTimestamp g) as [e g1].
  specialize (IH (timestamp e) g1).
  destruct (generate count (timestamp e) g1) as [es g2]. cbn [fst] in *.
  cbn [List.length]. now rewrite IH.
Qed.

Lemma chain_In (previous : Z) (es : list entry) (e : entry) :
  chain previous es -> In e es -> exists before, drawn before e.
Proof.
  revert previous. induction es as [|e' es IH]; intros previous; [contradiction|].
  intros [He' Hes] [<- | Hin]; [eauto|]. exact (IH _ Hes Hin).
Qed.

Lemma entries_drawn (count : nat) (g : engine) (e : entry) :
  In e (entries count g) -> exists before, drawn before e.
Proof. apply chain_In with (previous := initialTimestamp), generate_chain. Qed.

Lemma lines_entries (count : nat) (g : engine) (line : string) :
  In line (lines count g) ->
  exists e, In e (entries count g) /\ line = format_line e.
Proof.
  unfold Generator.lines. rewrite in_map_iff.
  intros [e [<- He]]. eauto.
Qed.

Lemma chain_steps (previous : Z) (es : list entry) :
  chain previous es -> steps_within previous (map timestamp es).
Proof.
  revert previous. induction es as [|e es IH]; intros previous; [trivial|].
  intros [He Hes]. split; [apply He|apply IH, Hes].
Qed.

Lemma chain_bound (previous : Z) (es : list entry) (e : entry) :
  chain previous es -> In e es ->
  previous < timestamp e <= previous + 5 * Z.of_nat (List.length es).
Proof.
  revert previous. induction es as [|e' es IH]; intros previous; [contradiction|].
  intros [He' Hes] Hin. pose proof (drawn_timestamp _ _ He') as Hd.
  cbn [List.length]. destruct Hin as [<- | Hin]; [lia|].
  specialize (IH _ Hes Hin). lia.
Qed.

(** The [long long] timestamp of the program never leaves its range: after
    the 100000 iterations of [main] it is below [2^63] by far. *)
Lemma timestamp_in_range (g : engine) (e : entry) :
  In e (entries (Z.to_nat numberOfLinesToGenerate) g) ->
  initialTimestamp < timestamp e <= 1673031200 /\ timestamp e < 2 ^ 63.
Proof.
  intros Hin.
  pose proof (chain_bound _ _ _ (generate_chain _ initialTimestamp g) Hin) as H.
  unfold Generator.entries in Hin. rewrite generate_length, Z2Nat.id in H
    by (unfold numberOfLinesToGenerate; lia).
  unfold numberOfLinesToGenerate, initialTimestamp in *. lia.
Qed.

Lemma steps_sorted (previous : Z) (ts : list Z) :
  steps_within previous ts -> StronglySorted Z.lt (previous :: ts).
Proof.
  revert previous. induction ts as [|t ts IH]; intros previous.
  - intros _. repeat constructor.
  - intros [Ht Hts]. specialize (IH _ Hts).
    constructor; [assumption|].
    constructor; [lia|].
    apply StronglySorted_inv in IH as [_ Hall].
    eapply List.Forall_impl; [|exact Hall]. cbn. intros; lia.
Qed.

Lemma format_line_fields (before : Z) (e : entry) :
  drawn before e ->
  split pipe (format_line e) =
    [dec (timestamp e); ip e; user e; action e; status e;
     dec (latency e) ++ "ms"; details e].
Proof.
  intros He. unfold format_line.
  rewrite split_field by (apply dec_free_of; [reflexivity|discriminate]).
  rewrite split_field
    by (apply (pool_free pipe ip_addresses); [reflexivity|apply He]).
  rewrite split_field
    by (apply (pool_free pipe user_ids); [reflexivity|apply He]).
  rewrite split_field
    by (apply (pool_free pipe actions); [reflexivity|apply He]).
  rewrite split_field
    by (apply (pool_free pipe statuses); [reflexivity|apply He]).
  rewrite split_latency_field by (apply dec_free_of; [reflexivity|discriminate]).
  rewrite split_free by apply He. reflexivity.
Qed.

(** C1: every line the generator emits splits on [|] into exactly seven
    fields, in the order timestamp, ip, user, action, status, latency,
    details, and its details field contains no [|]. *)
Theorem generated_line_has_seven_fields (count : nat) (g : engine) (line : string) :
  In line (lines count g) ->
  List.length (split pipe line) = 7%nat /\
  exists e : entry,
    In e (entries count g) /\
    split pipe line =
      [dec (timestamp e); ip e; user e; action e; status e;
       dec (latency e) ++ "ms"; details e] /\
    free_of pipe (details e) = true.
Proof.
  intros [e [He ->]]%lines_entries.
  destruct (entries_drawn _ _ _ He) as [before Hd].
  pose proof (format_line_fields _ _ Hd) as Hsplit.
  split; [now rewrite Hsplit|].
  exists e. repeat split; [assumption..|apply Hd].
Qed.

(** C5: the latency field of every line the generator emits is the decimal
    numeral of an integer from 5 to 250, digits only, immediately followed
    by the lowercase suffix [ms]. *)
Theorem generated_latency_is_int_ms (count : nat) (g : engine) (line : string) :
  In line (lines count g) ->
  exists n : Z,
    5 <= n <= 250 /\
    field 5 line = dec n ++ "ms" /\
    all_digits (dec n) = true /\
    dec n <> EmptyString.
Proof.
  intros [e [He ->]]%lines_entries.
  destruct (entries_drawn _ _ _ He) as [before Hd].
  exists (latency e). unfold field.
  rewrite (format_line_fields _ _ Hd). cbn [nth].
  pose proof (drawn_latency _ _ Hd).
  repeat split; try lia.
  - apply dec_all_digits. lia.
  - apply dec_not_empty.
Qed.

(** C6: the status field of every line the generator emits is one of
    SUCCESS, FAILURE, PENDING, the three values of the statuses pool; on a
    FAILED_LOGIN line it is FAILURE. *)
Theorem generated_status_in_pool (count : nat) (g : engine) (line : string) :
  In line (lines count g) ->
  In (field 4 line) ["SUCCESS"; "FAILURE"; "PENDING"] /\
  statuses = ["SUCCESS"; "FAILURE"; "PENDING"] /\
  (field 3 line = "FAILED_LOGIN" -> field 4 line = "FAILURE").
Proof.
  intros [e [He ->]]%lines_entries.
  destruct (entries_drawn _ _ _ He) as [before Hd].
  unfold field. rewrite (format_line_fields _ _ Hd). cbn [nth].
  split; [apply Hd|]. split; [reflexivity|apply Hd].
Qed.

(** C10: the timestamps of the emitted lines are strictly increasing; each
    exceeds the one before it by 1 to 5, the first one counted from
    1672531200, and the timestamp field of each line is its numeral. *)
Theorem generated_timestamps_increase (count : nat) (g : engine) :
  initialTimestamp = 1672531200 /\
  steps_within initialTimestamp (map timestamp (entries count g)) /\
  StronglySorted Z.lt (initialTimestamp :: map timestamp (entries count g)) /\
  map (field 0) (lines count g) = map (fun e => dec (timestamp e)) (entries count g).
Proof.
  pose proof (generate_chain count initialTimestamp g) as Hchain.
  pose proof (chain_steps _ _ Hchain) as Hsteps.
  split; [reflexivity|]. split; [exact Hsteps|].
  split; [exact (steps_sorted _ _ Hsteps)|].
  unfold Generator.lines. rewrite map_map. apply map_ext_in.
  intros e He. destruct (entries_drawn _ _ _ He) as [before Hd].
  unfold field. now rewrite (format_line_fields _ _ Hd).
Qed.

End GeneratorFacts.

(** *** The generator run on a concrete engine *)

Section GeneratorRuns.
Import Text Generator.

Lemma lcg_uniform_int_range (a b g : Z) :
  a <= b -> a <= fst (lcg_uniform_int a b g) <= b.
Proof.
  intros Hab. unfold lcg_uniform_int. cbn [fst].
  pose proof (Z.mod_pos_bound g (b - a + 1) ltac:(lia)). lia.
Qed.

Local Abbreviation lcg_lines := (lines Z lcg_uniform_int lcg_price).
Local Abbreviation lcg_entries := (entries Z lcg_uniform_int lcg_price).

Lemma first_line_generated : In first_line (lcg_lines 3 42).
Proof. left. vm_compute. reflexivity. Defined.

Lemma generated_line_has_seven_fields_witness :
  In first_line (lcg_lines 3 42) /\
  List.length (split pipe first_line) = 7%nat /\
  exists e : entry,
    In e (lcg_entries 3 42) /\
    split pipe first_line =
      [dec (timestamp e); ip e; user e; action e; status e;
       dec (latency e) ++ "ms"; details e] /\
    free_of pipe (details e) = true.
Proof.
  split; [exact first_line_generated|].
  apply (generated_line_has_seven_fields Z lcg_uniform_int lcg_price
           lcg_uniform_int_range 3 42 first_line).
  exact first_line_generated.
Defined.

Lemma generated_latency_is_int_ms_witness :
  In first_line (lcg_lines 3 42) /\
  exists n : Z,
    5 <= n <= 250 /\ field 5 first_line = dec n ++ "ms" /\
    all_digits (dec n) = true /\ dec n <> EmptyString.
Proof.
  split; [exact first_line_generated|].
  apply (generated_latency_is_int_ms Z lcg_uniform_int lcg_price
           lcg_uniform_int_range 3 42 first_line).
  exact first_line_generated.
Defined.

Lemma generated_status_in_pool_witness :
  In first_line (lcg_lines 3 42) /\
  In (field 4 first_line) ["SUCCESS"; "FAILURE"; "PENDING"] /\
  statuses = ["SUCCESS"; "FAILURE"; "PENDING"] /\
  (field 3 first_line = "FAILED_LOGIN" -> field 4 first_line = "FAILURE").
Proof.
  split; [exact first_line_generated|].
  apply (generated_status_in_pool Z lcg_uniform_int lcg_price
           lcg_uniform_int_range 3 42 first_line).
  exact first_line_generated.
Defined.

Lemma generated_timestamps_increase_witness :
  (forall a b g : Z, a <= b -> a <= fst (lcg_uniform_int a b g) <= b) /\
  initialTimestamp = 1672531200 /\
  steps_within initialTimestamp (map timestamp (lcg_entries 3 42)) /\
  StronglySorted Z.lt (initialTimestamp :: map timestamp (lcg_entries 3 42)) /\
  map (field 0) (lcg_lines 3 42) = map (fun e => dec (timestamp e)) (lcg_entries 3 42).
Proof.
  split; [exact lcg_uniform_int_range|].
  exact (generated_timestamps_increase Z lcg_uniform_int lcg_price
           lcg_uniform_int_range 3 42).
Defined.

(** The three timestamps of that run. *)
Example lcg_timestamps :
  map timestamp (lcg_entries 3 42) = [1672531203; 1672531204; 1672531205].
Proof. vm_compute. reflexivity. Qed.

End GeneratorRuns.

(** ** The parser of the specification *)

Section ParserFacts.
Import Text Parser.

Variable on_empty_field : LogRecord -> Z -> string -> ParseResult.

Local Abbreviation parse := (parse on_empty_field).
Local Abbreviation parse_from := (parse_from on_empty_field).
Local Abbreviation parse_all := (parse_all on_empty_field).

Lemma parse_few_fields (line : string) (n : Z) :
  (List.length (split pipe line) < 7)%nat ->
  parse line n = inr {| line_number := n; raw_line := line; kind := MalformedFieldCount |}.
Proof.
  intros Hfew. unfold Parser.parse.
  pose proof (splitn_length 7 pipe line) as Hlen.
  destruct (splitn 7 pipe line) as [|f1 [|f2 [|f3 [|f4 [|f5 [|f6 [|f7 [|f8 fs]]]]]]]];
    try reflexivity; cbn [List.length] in Hlen; lia.
Qed.

Lemma parse_from_lookup (lines : list string) (first : Z) (i : nat) (line : string) :
  lines !! i = Some line ->
  parse_from first lines !! i = Some (parse line (first + Z.of_nat i)).
Proof.
  revert first i. induction lines as [|l lines IH]; intros first i; [discriminate|].
  destruct i as [|i]; cbn [Parser.parse_from]; intros Hi.
  - change (Some l = Some line) in Hi. injection Hi as ->.
    change (Some (parse line first) = Some (parse line (first + Z.of_nat 0))).
    now rewrite Z.add_0_r.
  - change (lines !! i = Some line) in Hi.
    change (parse_from (first + 1) lines !! i
            = Some (parse line (first + Z.of_nat (S i)))).
    rewrite (IH (first + 1) i Hi). do 2 f_equal. lia.
Qed.

(** C7: for the line of the first scenario, whatever its line number,
    [parse] returns a record with timestamp 1672531200, ip 10.0.0.5, user
    user_alpha, action LOGIN, status SUCCESS, latency 42, and a details
    mapping that sends Details to N/A and holds nothing else. *)
Theorem parse_scenario_1 (n : Z) :
  exists r : LogRecord,
    parse "1672531200|10.0.0.5|user_alpha|LOGIN|SUCCESS|42ms|Details:N/A" n = inl r /\
    timestamp r = 1672531200 /\
    source_ip r = "10.0.0.5" /\
    user_id r = "user_alpha" /\
    action r = "LOGIN" /\
    status r = "SUCCESS" /\
    latency_ms r = 42 /\
    details r = {[ "Details" := "N/A" ]}.
Proof.
  eexists. split; [vm_compute; reflexivity|].
  cbn [timestamp source_ip user_id action status latency_ms].
  repeat split.
Qed.

(** C8: a line that splits into fewer than seven fields is answered with a
    MalformedFieldCount error that carries the line number and the line,
    never with a record; in a stream the line numbers count from 1. *)
Theorem parse_malformed_field_count (line : string) (n : Z) :
  (List.length (split pipe line) < 7)%nat ->
  parse line n = inr {| line_number := n; raw_line := line; kind := MalformedFieldCount |} /\
  (forall r : LogRecord, parse line n <> inl r) /\
  (forall (lines : list string) (i : nat),
      lines !! i = Some line ->
      parse_all lines !! i =
        Some (inr {| line_number := Z.of_nat i + 1; raw_line := line;
                     kind := MalformedFieldCount |})).
Proof.
  intros Hfew. split; [now apply parse_few_fields|]. split.
  - intros r. rewrite (parse_few_fields line n Hfew). discriminate.
  - intros lines i Hi. unfold Parser.parse_all.
    rewrite (parse_from_lookup lines 1 i line Hi).
    rewrite (parse_few_fields line _ Hfew). do 3 f_equal. lia.
Qed.

End ParserFacts.

Section ParserRuns.
Import Text Parser.

Lemma parse_malformed_field_count_witness :
  (List.length (split pipe "bad|line") < 7)%nat /\
  parse accept_empty_field "bad|line" 3
    = inr {| line_number := 3; raw_line := "bad|line"; kind := MalformedFieldCount |} /\
  (forall r : LogRecord, parse accept_empty_field "bad|line" 3 <> inl r) /\
  (forall (lines : list string) (i : nat),
      lines !! i = Some "bad|line" ->
      parse_all accept_empty_field lines !! i =
        Some (inr {| line_number := Z.of_nat i + 1; raw_line := "bad|line";
                     kind := MalformedFieldCount |})).
Proof.
  assert (H : (List.length (split pipe "bad|line") < 7)%nat) by (vm_compute; lia).
  split; [exact H|].
  exact (parse_malformed_field_count accept_empty_field "bad|line" 3 H).
Defined.

(** The other scenarios of the specification, on the same model. *)
Example parse_scenario_2 :
  match parse accept_empty_field
          "1672531200|10.0.0.5|user_alpha|TRADE_EXECUTE|SUCCESS|42ms|Symbol:AAPL,Quantity:120,Price:432.10"
          1 with
  | inl r => details r
             = {[ "Symbol" := "AAPL"; "Quantity" := "120"; "Price" := "432.10" ]}
  | inr _ => False
  end.
Proof. vm_compute. reflexivity. Qed.

Example parse_scenario_4 :
  parse accept_empty_field "abc|10.0.0.5|u|LOGIN|SUCCESS|42ms|x" 9
    = inr {| line_number := 9; raw_line := "abc|10.0.0.5|u|LOGIN|SUCCESS|42ms|x";
             kind := InvalidTimestamp |}.
Proof. reflexivity. Qed.

Example parse_latency_without_suffix :
  parse accept_empty_field "1|10.0.0.5|u|LOGIN|SUCCESS|42|x" 9
    = inr {| line_number := 9; raw_line := "1|10.0.0.5|u|LOGIN|SUCCESS|42|x";
             kind := InvalidLatency |}.
Proof. reflexivity. Qed.

(** Delimiters in the details do not count as field separators. *)
Example parse_details_with_pipe :
  match parse accept_empty_field "1|10.0.0.5|u|LOGIN|SUCCESS|42ms|a:b|c" 9 with
  | inl r => details_field r = "a:b|c"
  | inr _ => False
  end.
Proof. reflexivity. Qed.

End ParserRuns.

(** ** The aggregator of the specification *)

Section AggregatorFacts.
Import Aggregator.

Lemma ingest_total (item : Parser.ParseResult) (a : AggregateSnapshot) :
  total_lines (ingest item a) = (total_lines a + 1)%N.
Proof. destruct item; reflexivity. Qed.

Lemma ingest_parsed_and_errors (item : Parser.ParseResult) (a : AggregateSnapshot) :
  (records_parsed (ingest item a) + parse_errors (ingest item a)
   = records_parsed a + parse_errors a + 1)%N.
Proof. destruct item; unfold records_parsed; cbn; lia. Qed.

Lemma ingest_all_counts (items : list Parser.ParseResult) (a : AggregateSnapshot) :
  total_lines (ingest_all items a)
    = (total_lines a + N.of_nat (List.length items))%N /\
  (records_parsed (ingest_all items a) + parse_errors (ingest_all items a)
   = records_parsed a + parse_errors a + N.of_nat (List.length items))%N.
Proof.
  revert a. induction items as [|item items IH]; intros a.
  - cbn. split; lia.
  - change (ingest_all (item :: items) a) with (ingest_all items (ingest item a)).
    destruct (IH (ingest item a)) as [Ht Hp].
    rewrite Ht, Hp, ingest_total, ingest_parsed_and_errors.
    cbn [List.length]. split; lia.
Qed.

(** The records parsed are the records ingested, the parse errors the
    errors ingested. *)
Lemma ingest_all_by_kind (items : list Parser.ParseResult) (a : AggregateSnapshot) :
  records_parsed (ingest_all items a)
    = (records_parsed a + N.of_nat (List.length (Parser.records items)))%N /\
  parse_errors (ingest_all items a)
    = (parse_errors a + N.of_nat (List.length (Parser.errors items)))%N.
Proof.
  revert a. induction items as [|item items IH]; intros a.
  - cbn. split; lia.
  - change (ingest_all (item :: items) a) with (ingest_all items (ingest item a)).
    destruct (IH (ingest item a)) as [Hr He]. rewrite Hr, He.
    destruct item as [r|e].
    + change (Parser.records (inl r :: items)) with (r :: Parser.records items).
      change (Parser.errors (inl r :: items)) with (Parser.errors items).
      unfold records_parsed. cbn [ingest latency observe observed parse_errors List.length].
      split; lia.
    + change (Parser.records (inr e :: items)) with (Parser.records items).
      change (Parser.errors (inr e :: items)) with (e :: Parser.errors items).
      unfold records_parsed. cbn [ingest latency parse_errors List.length].
      split; lia.
Qed.

(** C9: after N calls of [ingest], on records and errors in any mix, the
    snapshot has seen N lines in total, and its records parsed and parse
    errors add up to N. *)
Theorem aggregator_counts_every_line (items : list Parser.ParseResult) :
  total_lines (snapshot (ingest_all items empty)) = N.of_nat (List.length items) /\
  (records_parsed (snapshot (ingest_all items empty))
   + parse_errors (snapshot (ingest_all items empty)))%N
    = N.of_nat (List.length items).
Proof.
  unfold snapshot. destruct (ingest_all_counts items empty) as [Ht Hp].
  rewrite Ht, Hp. cbn. split; lia.
Qed.

End AggregatorFacts.

(** ** The generator's lines under the parser of the specification *)

Section GeneratedLogs.
Import Text.

Lemma splitn_all (k : nat) (sep : ascii) (s : string) :
  (List.length (split sep s) <= k)%nat -> splitn k sep s = split sep s.
Proof.
  revert s. induction k as [|k IH]; intros s Hlen.
  - pose proof (split_nonempty sep s). destruct (split sep s); [contradiction|].
    cbn [List.length] in Hlen. lia.
  - assert (E : splitn (S k) sep s =
                match split_first sep s with
                | Some (a, b) => match k with O => [s] | _ => a :: splitn k sep b end
                | None => [s]
                end)
      by (destruct k; cbn [splitn]; destruct (split_first sep s) as [[a b]|]; reflexivity).
    rewrite E. destruct (split_first sep s) as [[a b]|] eqn:Hfirst.
    + rewrite (split_first_some _ _ _ _ Hfirst) in Hlen |- *.
      cbn [List.length] in Hlen.
      destruct k as [|k'].
      * pose proof (split_nonempty sep b). destruct (split sep b); [contradiction|].
        cbn [List.length] in Hlen. lia.
      * rewrite IH by lia. reflexivity.
    + now rewrite (split_first_none _ _ Hfirst).
Qed.

Lemma digit_not_m (c : ascii) : is_digit c = true -> Ascii.eqb c "m" = false.
Proof.
  intros Hc. apply Ascii.eqb_neq. intros ->. discriminate.
Qed.

Lemma strip_ms_digits (d : string) :
  all_digits d = true -> Parser.strip_ms (d ++ "ms") = Some d.
Proof.
  unfold all_digits. induction d as [|c d IH]; [reflexivity|].
  cbn [all_chars]. intros [Hc Hd]%andb_prop.
  change (String c d ++ "ms") with (String c (d ++ "ms")).
  cbn [Parser.strip_ms].
  change (String.eqb (String c (d ++ "ms")) "ms")
    with (if Ascii.eqb c "m" then String.eqb (d ++ "ms") "s" else false).
  rewrite (digit_not_m c Hc), (IH Hd). reflexivity.
Qed.

Lemma parse_nonneg_dec (z : Z) : 0 <= z -> Parser.parse_nonneg (dec z) = Some z.
Proof.
  intros Hz. unfold Parser.parse_nonneg.
  pose proof (dec_not_empty z) as Hne.
  destruct (dec z) as [|c s] eqn:E; [contradiction|]. rewrite <- E.
  unfold dec. destruct z as [|p|p]; [reflexivity| |lia].
  cbn [Z.to_int NilEmpty.string_of_int]. rewrite NilEmpty.usu.
  f_equal. unfold Z.of_uint. now rewrite DecimalPos.Unsigned.of_to.
Qed.

Lemma parse_latency_dec (z : Z) :
  0 <= z -> Parser.parse_latency (dec z ++ "ms") = Some z.
Proof.
  intros Hz. unfold Parser.parse_latency.
  rewrite strip_ms_digits by now apply dec_all_digits.
  now apply parse_nonneg_dec.
Qed.

(** A line of the generator is parsed into a record with the values the
    generator wrote (the first testable property of the specification). *)
Lemma parse_format_line
    (on_empty_field : Parser.LogRecord -> Z -> string -> Parser.ParseResult)
    (before : Z) (e : Generator.entry) (n : Z) :
  Generator.drawn before e -> 0 <= Generator.timestamp e ->
  Parser.parse on_empty_field (Generator.format_line e) n =
    inl {| Parser.timestamp := Generator.timestamp e;
           Parser.source_ip := Generator.ip e;
           Parser.user_id := Generator.user e;
           Parser.action := Generator.action e;
           Parser.status := Generator.status e;
           Parser.latency_ms := Generator.latency e;
           Parser.details_field := Generator.details e |}.
Proof.
  intros Hd Hts. unfold Parser.parse.
  pose proof (format_line_fields before e Hd) as Hsplit.
  rewrite splitn_all by now rewrite Hsplit.
  rewrite Hsplit, parse_nonneg_dec by assumption.
  rewrite parse_latency_dec by (pose proof (Generator.drawn_latency _ _ Hd); lia).
  assert (Hip : String.eqb (Generator.ip e) EmptyString = false).
  { pose proof (Generator.drawn_ip _ _ Hd) as Hin.
    apply String.eqb_neq. intros E. rewrite E in Hin.
    cbn in Hin. intuition discriminate. }
  assert (Huser : String.eqb (Generator.user e) EmptyString = false).
  { pose proof (Generator.drawn_user _ _ Hd) as Hin.
    apply String.eqb_neq. intros E. rewrite E in Hin.
    cbn in Hin. intuition discriminate. }
  rewrite Hip, Huser. reflexivity.
Qed.

End GeneratedLogs.

(** ** The generated file under the analyzer and the parser *)

Section GeneratedFile.
Import Text Generator.

Variable engine : Type.
Variable uniform_int : Z -> Z -> engine -> Z * engine.
Variable price_dist : engine -> N * engine.
Hypothesis uniform_int_range :
  forall (a b : Z) (g : engine), a <= b -> a <= fst (uniform_int a b g) <= b.

Local Abbreviation entries := (entries engine uniform_int price_dist).
Local Abbreviation lines := (lines engine uniform_int price_dist).

Lemma file_lines_line (l rest : string) :
  free_of newline l = true ->
  Analyzer.file_lines (l ++ endl ++ rest) = l :: Analyzer.file_lines rest.
Proof.
  unfold free_of. induction l as [|c l IH]; cbn [all_chars]; intros H.
  - change (EmptyString ++ endl ++ rest) with (String newline rest).
    cbn [Analyzer.file_lines]. now rewrite Ascii.eqb_refl.
  - apply andb_prop in H as [Hc Hl]. apply negb_true_iff in Hc.
    change (String c l ++ endl ++ rest) with (String c (l ++ endl ++ rest)).
    cbn [Analyzer.file_lines]. now rewrite Hc, (IH Hl).
Qed.

Lemma format_line_free_of_newline (before : Z) (e : entry) :
  drawn before e -> free_of newline (format_line e) = true.
Proof.
  intros He. unfold format_line. rewrite !free_of_app.
  rewrite !dec_free_of by (reflexivity || discriminate).
  rewrite (pool_free newline ip_addresses _ eq_refl (drawn_ip _ _ He)).
  rewrite (pool_free newline user_ids _ eq_refl (drawn_user _ _ He)).
  rewrite (pool_free newline actions _ eq_refl (drawn_action _ _ He)).
  rewrite (pool_free newline statuses _ eq_refl (drawn_status _ _ He)).
  rewrite (drawn_details_newline _ _ He). reflexivity.
Qed.

Lemma file_lines_write_lines (previous : Z) (es : list entry) :
  chain previous es -> Analyzer.file_lines (write_lines es) = map format_line es.
Proof.
  revert previous. induction es as [|e es IH]; intros previous; [reflexivity|].
  intros [He Hes]. cbn [write_lines map]. unfold write_line.
  rewrite append_assoc, file_lines_line by exact (format_line_free_of_newline _ _ He).
  now rewrite (IH _ Hes).
Qed.

(** The analyzer reads back from [sample.log] the lines the generator
    wrote, one per iteration. *)
Lemma analyzer_reads_generated (count : nat) (g : engine) :
  Analyzer.file_lines (write_lines (entries count g)) = lines count g /\
  List.length (lines count g) = count.
Proof.
  split.
  - apply (file_lines_write_lines initialTimestamp), generate_chain.
    exact uniform_int_range.
  - unfold Generator.lines, Generator.entries.
    now rewrite length_map, generate_length.
Qed.

(** A run of [main] that can write: it returns 0 and leaves the 100000
    lines of its loop in [sample.log]. *)
Lemma main_writes_lines (g : engine) :
  exit_code (main engine uniform_int price_dist true g) = 0 /\
  sample_log (main engine uniform_int price_dist true g)
    = Some (write_lines (entries (Z.to_nat numberOfLinesToGenerate) g)) /\
  Analyzer.file_lines (write_lines (entries (Z.to_nat numberOfLinesToGenerate) g))
    = lines (Z.to_nat numberOfLinesToGenerate) g /\
  Z.of_nat (List.length (lines (Z.to_nat numberOfLinesToGenerate) g)) = 100000.
Proof.
  unfold Generator.main, Generator.entries. cbn [negb].
  destruct (generate engine uniform_int price_dist
              (Z.to_nat numberOfLinesToGenerate) initialTimestamp g) as [es g'] eqn:E.
  cbn [exit_code sample_log fst]. split; [reflexivity|]. split; [reflexivity|].
  destruct (analyzer_reads_generated (Z.to_nat numberOfLinesToGenerate) g) as [Hl Hn].
  unfold Generator.entries in Hl. rewrite E in Hl. cbn [fst] in Hl.
  split; [exact Hl|]. rewrite Hn. apply Z2Nat.id. unfold numberOfLinesToGenerate. lia.
Qed.

(** A run of [main] that cannot open [sample.log]: it returns 1 and writes
    no line. *)
Lemma main_cannot_write (g : engine) :
  exit_code (main engine uniform_int price_dist false g) = 1 /\
  sample_log (main engine uniform_int price_dist false g) = None.
Proof. split; reflexivity. Qed.

(** Every generated line is accepted by the parser of the specification,
    whatever it does with empty fields. *)
Lemma generated_lines_parse
    (on_empty_field : Parser.LogRecord -> Z -> string -> Parser.ParseResult)
    (count : nat) (g : engine) (e : entry) (n : Z) :
  In e (entries count g) ->
  Parser.parse on_empty_field (format_line e) n =
    inl {| Parser.timestamp := timestamp e;
           Parser.source_ip := ip e;
           Parser.user_id := user e;
           Parser.action := action e;
           Parser.status := status e;
           Parser.latency_ms := latency e;
           Parser.details_field := details e |}.
Proof.
  intros He.
  destruct (entries_drawn engine uniform_int price_dist uniform_int_range _ _ _ He)
    as [before Hd].
  pose proof (chain_bound _ _ _
                (generate_chain engine uniform_int price_dist uniform_int_range
                   count initialTimestamp g) He) as Hb.
  apply (parse_format_line on_empty_field before e n Hd).
  unfold initialTimestamp in Hb. lia.
Qed.

End GeneratedFile.

(** ** More on the analyzer's reading loop *)

Section AnalyzerLines.
Import Text Analyzer.

Lemma file_lines_not_nil (c : ascii) (s : string) : file_lines (String c s) <> [].
Proof.
  cbn [file_lines]. destruct (Ascii.eqb c newline); [discriminate|].
  destruct (file_lines s); discriminate.
Qed.

Lemma unterminated_cons (c d : ascii) (s : string) :
  unterminated (String c (String d s)) = unterminated (String d s).
Proof. reflexivity. Qed.

Lemma unterminated_single (c : ascii) :
  unterminated (String c EmptyString) = negb (Ascii.eqb c newline).
Proof. reflexivity. Qed.

Lemma file_lines_cons (c : ascii) (s : string) :
  Ascii.eqb c newline = false ->
  file_lines (String c s) =
    match file_lines s with
    | l :: ls => String c l :: ls
    | [] => [String c EmptyString]
    end.
Proof. intros H. cbn [file_lines]. now rewrite H. Qed.

Lemma file_lines_newline (s : string) :
  file_lines (String newline s) = EmptyString :: file_lines s.
Proof. reflexivity. Qed.

Lemma file_lines_free (s : string) :
  Forall (fun l => free_of newline l = true) (file_lines s).
Proof.
  induction s as [|c s IH]; [constructor|].
  destruct (Ascii.eqb c newline) eqn:Hc.
  - apply Ascii.eqb_eq in Hc as ->. rewrite file_lines_newline.
    constructor; [reflexivity|exact IH].
  - rewrite (file_lines_cons c s Hc).
    destruct (file_lines s) as [|l ls].
    + constructor; [|constructor]. unfold free_of. cbn [all_chars]. now rewrite Hc.
    + apply Forall_cons in IH as [Hl Hls]. constructor; [|exact Hls].
      unfold free_of in *. cbn [all_chars]. now rewrite Hc, Hl.
Qed.

Lemma file_lines_count (s : string) :
  List.length (file_lines s)
    = (count_char newline s + (if unterminated s then 1 else 0))%nat.
Proof.
  induction s as [|c s IH]; [reflexivity|].
  destruct (Ascii.eqb c newline) eqn:Hc.
  - apply Ascii.eqb_eq in Hc as ->. rewrite file_lines_newline.
    change (count_char newline (String newline s))
      with ((if Ascii.eqb newline newline then 1 else 0) + count_char newline s)%nat.
    cbn [List.length]. rewrite Ascii.eqb_refl, IH.
    destruct s as [|d s]; [reflexivity|]. now rewrite unterminated_cons.
  - rewrite (file_lines_cons c s Hc).
    change (count_char newline (String c s))
      with ((if Ascii.eqb c newline then 1 else 0) + count_char newline s)%nat.
    rewrite Hc, Nat.add_0_l.
    destruct s as [|d s].
    + cbn [file_lines List.length count_char]. rewrite unterminated_single, Hc.
      reflexivity.
    + rewrite unterminated_cons, <- IH.
      pose proof (file_lines_not_nil d s).
      destruct (file_lines (String d s)); [contradiction|reflexivity].
Qed.

Lemma join_file_lines (s : string) :
  join_lines (file_lines s) = if unterminated s then s ++ endl else s.
Proof.
  induction s as [|c s IH]; [reflexivity|].
  destruct (Ascii.eqb c newline) eqn:Hc.
  - apply Ascii.eqb_eq in Hc as ->. rewrite file_lines_newline.
    cbn [join_lines]. rewrite IH.
    change (EmptyString ++ endl ++ ?x) with (String newline x).
    destruct s as [|d s]; [reflexivity|]. rewrite unterminated_cons.
    now destruct (unterminated (String d s)).
  - rewrite (file_lines_cons c s Hc).
    destruct s as [|d s].
    + cbn [file_lines join_lines]. rewrite unterminated_single, Hc. reflexivity.
    + rewrite unterminated_cons.
      pose proof (file_lines_not_nil d s).
      destruct (file_lines (String d s)) as [|l ls]; [contradiction|].
      cbn [join_lines] in *.
      change (String c l ++ endl ++ join_lines ls)
        with (String c (l ++ endl ++ join_lines ls)).
      rewrite IH. now destruct (unterminated (String d s)).
Qed.

Lemma file_lines_app (a b : string) :
  unterminated a = false ->
  file_lines (a ++ b) = (file_lines a ++ file_lines b)%list.
Proof.
  induction a as [|c a IH]; [reflexivity|]. intros Hu.
  change (String c a ++ b) with (String c (a ++ b)).
  destruct (Ascii.eqb c newline) eqn:Hc.
  - apply Ascii.eqb_eq in Hc as ->. rewrite !file_lines_newline.
    rewrite IH; [reflexivity|].
    destruct a as [|d a]; [reflexivity|]. now rewrite unterminated_cons in Hu.
  - destruct a as [|d a].
    + rewrite unterminated_single, Hc in Hu. discriminate.
    + rewrite unterminated_cons in Hu.
      rewrite (file_lines_cons c _ Hc), (file_lines_cons c _ Hc), (IH Hu).
      pose proof (file_lines_not_nil d a).
      destruct (file_lines (String d a)); [contradiction|reflexivity].
Qed.

Lemma file_lines_final_newline (s : string) :
  unterminated s = true -> file_lines (s ++ endl) = file_lines s.
Proof.
  induction s as [|c s IH]; [discriminate|]. intros Hu.
  change (String c s ++ endl) with (String c (s ++ endl)).
  destruct s as [|d s].
  - rewrite unterminated_single in Hu. apply negb_true_iff in Hu.
    change (EmptyString ++ endl) with endl.
    rewrite !(file_lines_cons c _ Hu). reflexivity.
  - rewrite unterminated_cons in Hu. specialize (IH Hu).
    destruct (Ascii.eqb c newline) eqn:Hc.
    + apply Ascii.eqb_eq in Hc as ->. rewrite !file_lines_newline. now rewrite IH.
    + rewrite !(file_lines_cons c _ Hc). now rewrite IH.
Qed.

Lemma read_loop_lines (stream : string) (n : Z) :
  lines_read (trace (read_loop stream n)) = file_lines stream.
Proof.
  rewrite read_loop_spec. unfold trace. cbn [snd].
  rewrite lines_read_app, lines_read_getlines. apply app_nil_r.
Qed.

Lemma read_loop_count (stream : string) (n : Z) :
  exit_code (read_loop stream n) = n + Z.of_nat (List.length (file_lines stream)).
Proof. now rewrite read_loop_spec. Qed.

(** X1: the analyzer returns 0 or 1, and 0 exactly when it is given one
    argument and the file at that path opens. *)
Theorem analyzer_succeeds_iff (fs : filesystem) (inv : invocation) :
  (exit_code (main fs inv) = 0 <->
     exists path content : string, args inv = [path] /\ fs path = Some content) /\
  (exit_code (main fs inv) = 0 \/ exit_code (main fs inv) = 1).
Proof.
  rewrite analyzer_exit_code.
  destruct (Z.eqb_spec (argc inv) 2) as [Hargc|Hargc]; cbn [negb].
  - apply argc_two in Hargc as [path Hargs]. rewrite Hargs. cbn [nth].
    destruct (fs path) as [content|] eqn:Hfs.
    + split; [|now left]. split; [eauto|reflexivity].
    + split; [|now right]. split; [discriminate|].
      intros [path' [content [[= <-] Hc]]]. congruence.
  - split; [|now right]. split; [discriminate|].
    intros [path [content [Hargs _]]]. exfalso. apply Hargc, argc_two. eauto.
Qed.

(** X2: the count the analyzer reports is the number of newline characters
    of the file, plus one when the file ends in a line without a newline. *)
Theorem analyzer_reports_newline_count (fs : filesystem) (p path content : string) :
  fs path = Some content ->
  In ("Total lines processed: "
        ++ dec (Z.of_nat (count_char newline content)
                + (if unterminated content then 1 else 0))
        ++ endl)
     (stdout_text (trace (main fs {| prog := p; args := [path] |}))).
Proof.
  intros Hfs. rewrite (main_opened fs p path content Hfs).
  unfold trace, stdout_text. cbn [snd]. rewrite !omap_app.
  rewrite omap_getlines by reflexivity. rewrite file_lines_count.
  replace (Z.of_nat (count_char newline content + (if unterminated content then 1 else 0)))
    with (Z.of_nat (count_char newline content) + (if unterminated content then 1 else 0))
    by (destruct (unterminated content); lia).
  cbn. tauto.
Qed.

Lemma analyzer_reports_newline_count_witness :
  two_line_file "a.log" = Some ("x" ++ endl ++ "y") /\
  In ("Total lines processed: "
        ++ dec (Z.of_nat (count_char newline ("x" ++ endl ++ "y"))
                + (if unterminated ("x" ++ endl ++ "y") then 1 else 0))
        ++ endl)
     (stdout_text (trace (main two_line_file {| prog := "analyzer"; args := ["a.log"] |}))).
Proof.
  split; [reflexivity|].
  apply (analyzer_reports_newline_count two_line_file "analyzer" "a.log").
  reflexivity.
Defined.

(** X3: the lines the reading loop yields contain no newline, and written
    back with a newline after each they give the file again, with a final
    newline added when the file had none. *)
Theorem getline_lines_rejoin (stream : string) (n : Z) :
  Forall (fun l => free_of newline l = true) (lines_read (trace (read_loop stream n))) /\
  join_lines (lines_read (trace (read_loop stream n)))
    = (if unterminated stream then stream ++ endl else stream).
Proof.
  rewrite read_loop_lines. split; [apply file_lines_free|apply join_file_lines].
Qed.

(** X4: the loop adds at most one to [lineCounter] per byte of the file,
    so the [long long] cannot overflow on a file of fewer than [2^63]
    bytes. *)
Theorem line_counter_bounded (stream : string) (n : Z) :
  n <= exit_code (read_loop stream n) <= n + Z.of_nat (String.length stream).
Proof.
  rewrite read_loop_count. pose proof (file_lines_length stream). lia.
Qed.

(** X5: a final newline does not count as a line of its own: adding one to
    a file that ends without it changes neither the lines read nor the
    count. *)
Theorem final_newline_does_not_count (stream : string) (n : Z) :
  unterminated stream = true ->
  read_loop (stream ++ endl) n = read_loop stream n.
Proof.
  intros Hu. now rewrite !read_loop_spec, (file_lines_final_newline stream Hu).
Qed.

Lemma final_newline_does_not_count_witness :
  unterminated ("x" ++ endl ++ "y") = true /\
  read_loop (("x" ++ endl ++ "y") ++ endl) 0 = read_loop ("x" ++ endl ++ "y") 0.
Proof.
  split; [reflexivity|].
  apply (final_newline_does_not_count ("x" ++ endl ++ "y") 0). reflexivity.
Defined.

(** X6: reading two files one after the other, the first of them empty or
    ending in a newline, yields the lines of the first followed by the lines
    of the second, and the counts add up. *)
Theorem concatenated_files_add_up (a b : string) :
  unterminated a = false ->
  lines_read (trace (read_loop (a ++ b) 0))
    = (lines_read (trace (read_loop a 0)) ++ lines_read (trace (read_loop b 0)))%list /\
  exit_code (read_loop (a ++ b) 0)
    = exit_code (read_loop a 0) + exit_code (read_loop b 0).
Proof.
  intros Hu. rewrite !read_loop_lines, !read_loop_count, (file_lines_app a b Hu).
  split; [reflexivity|]. rewrite length_app. lia.
Qed.

Lemma concatenated_files_add_up_witness :
  unterminated ("x" ++ endl) = false /\
  lines_read (trace (read_loop (("x" ++ endl) ++ "y") 0))
    = (lines_read (trace (read_loop ("x" ++ endl) 0))
       ++ lines_read (trace (read_loop "y" 0)))%list /\
  exit_code (read_loop (("x" ++ endl) ++ "y") 0)
    = exit_code (read_loop ("x" ++ endl) 0) + exit_code (read_loop "y" 0).
Proof.
  split; [reflexivity|].
  apply (concatenated_files_add_up ("x" ++ endl) "y"). reflexivity.
Defined.

End AnalyzerLines.

(** ** More on the generator *)

Section GeneratorMore.
Import Text Generator.

Variable engine : Type.
Variable uniform_int : Z -> Z -> engine -> Z * engine.
Variable price_dist : engine -> N * engine.
Hypothesis uniform_int_range :
  forall (a b : Z) (g : engine), a <= b -> a <= fst (uniform_int a b g) <= b.

Local Abbreviation getRandomElement := (getRandomElement engine uniform_int).
Local Abbreviation draw_details := (draw_details engine uniform_int price_dist).
Local Abbreviation iteration := (iteration engine uniform_int price_dist).
Local Abbreviation generate := (generate engine uniform_int price_dist).
Local Abbreviation entries := (entries engine uniform_int price_dist).
Local Abbreviation lines := (lines engine uniform_int price_dist).
Local Abbreviation main := (main engine uniform_int price_dist).

Lemma generate_Forall (P : entry -> Prop) :
  (forall ts g, P (fst (iteration ts g))) ->
  forall count ts g, Forall P (fst (generate count ts g)).
Proof.
  intros HP. induction count as [|count IH]; intros ts g; [constructor|].
  cbn [Generator.generate]. unfold bind, ret.
  pose proof (HP ts g) as He.
  destruct (iteration ts g) as [e g1]. cbn [fst] in He.
  specialize (IH (timestamp e) g1).
  destruct (generate count (timestamp e) g1) as [es g2]. cbn [fst] in *.
  now constructor.
Qed.

Lemma draw_details_shape (action : string) (g : engine) :
  details_shape action (fst (draw_details action g)).
Proof.
  unfold details_shape, Generator.draw_details.
  destruct (String.eqb action "TRADE_EXECUTE").
  - unfold bind, ret.
    pose proof (getRandomElement_In engine uniform_int uniform_int_range
                  trade_symbols g ltac:(discriminate)) as Hsym.
    destruct (getRandomElement trade_symbols g) as [symbol g1].
    pose proof (uniform_int_range 10 500 g1 ltac:(lia)) as Hq.
    destruct (uniform_int 10 500 g1) as [quantity g2].
    destruct (price_dist g2) as [price g3]. cbn [fst] in *.
    exists symbol, quantity, price. auto.
  - destruct (String.eqb action "FAILED_LOGIN"); reflexivity.
Qed.

Lemma iteration_details (ts : Z) (g : engine) :
  details_shape (action (fst (iteration ts g))) (details (fst (iteration ts g))).
Proof.
  unfold Generator.iteration, bind, ret.
  destruct (uniform_int 1 5 g) as [increment g1].
  destruct (getRandomElement ip_addresses g1) as [ip g2].
  destruct (getRandomElement user_ids g2) as [user g3].
  destruct (getRandomElement actions g3) as [action g4].
  destruct (String.eqb action "FAILED_LOGIN").
  - destruct (uniform_int 5 250 g4) as [latency g5].
    pose proof (draw_details_shape action g5) as H.
    destruct (draw_details action g5) as [details g6]. exact H.
  - destruct (getRandomElement statuses g4) as [status g5].
    destruct (uniform_int 5 250 g5) as [latency g6].
    pose proof (draw_details_shape action g6) as H.
    destruct (draw_details action g6) as [details g7]. exact H.
Qed.

Lemma entries_details (count : nat) (g : engine) (e : entry) :
  In e (entries count g) -> details_shape (action e) (details e).
Proof.
  intros He.
  pose proof (generate_Forall (fun e => details_shape (action e) (details e))
                iteration_details count initialTimestamp g) as H.
  rewrite List.Forall_forall in H. now apply H.
Qed.

Lemma chain_lookup (previous : Z) (es : list entry) (i : nat) (e : entry) :
  chain previous es -> es !! i = Some e ->
  previous + Z.of_nat (S i) <= timestamp e <= previous + 5 * Z.of_nat (S i).
Proof.
  revert previous i. induction es as [|e' es IH]; intros previous i; [discriminate|].
  intros [He' Hes] Hi. pose proof (drawn_timestamp _ _ He') as Hd.
  destruct i as [|i].
  - change (Some e' = Some e) in Hi. injection Hi as ->. lia.
  - change (es !! i = Some e) in Hi. specialize (IH _ _ Hes Hi). lia.
Qed.

Lemma nth_map_lookup {A B} (f : A -> B) (l : list A) (i : nat) (x : A) (d : B) :
  l !! i = Some x -> nth i (map f l) d = f x.
Proof.
  revert i. induction l as [|y l IH]; intros i; [discriminate|].
  destruct i as [|i]; intros Hi.
  - change (Some y = Some x) in Hi. now injection Hi as ->.
  - change (l !! i = Some x) in Hi. exact (IH i Hi).
Qed.

Lemma dec_inj (a b : Z) : dec a = dec b -> a = b.
Proof.
  unfold dec. intros H.
  assert (E : Z.to_int a = Z.to_int b).
  { pose proof (NilEmpty.isi (Z.to_int a)) as Ha.
    rewrite H, NilEmpty.isi in Ha. congruence. }
  rewrite <- (DecimalZ.of_to a), <- (DecimalZ.of_to b). now rewrite E.
Qed.

Lemma NoDup_map_dec (l : list Z) : List.NoDup l -> List.NoDup (map dec l).
Proof.
  induction 1 as [|x l Hx Hl IH]; [apply List.NoDup_nil|].
  cbn [map]. apply List.NoDup_cons; [|exact IH].
  rewrite in_map_iff. intros [y [Hy Hin]]. apply dec_inj in Hy. now subst y.
Qed.

Lemma sorted_NoDup (l : list Z) : StronglySorted Z.lt l -> List.NoDup l.
Proof.
  induction 1 as [|x l Hs IH Hall]; [apply List.NoDup_nil|].
  apply List.NoDup_cons; [|exact IH].
  intros Hin. rewrite List.Forall_forall in Hall. specialize (Hall x Hin). lia.
Qed.

Lemma lines_first_field (count : nat) (g : engine) :
  map (field 0) (lines count g) = map dec (map timestamp (entries count g)).
Proof.
  unfold Generator.lines. rewrite !map_map. apply map_ext_in.
  intros e He.
  destruct (entries_drawn engine uniform_int price_dist uniform_int_range _ _ _ He)
    as [before Hd].
  unfold field. now rewrite (format_line_fields _ _ Hd).
Qed.

Lemma generate_prefix (m n : nat) (ts : Z) (g : engine) :
  exists rest : list entry,
    fst (generate (m + n) ts g) = (fst (generate m ts g) ++ rest)%list.
Proof.
  revert ts g. induction m as [|m IH]; intros ts g.
  - exists (fst (generate n ts g)). reflexivity.
  - cbn [Nat.add Generator.generate]. unfold bind, ret.
    destruct (iteration ts g) as [e g1].
    destruct (IH (timestamp e) g1) as [rest Hrest].
    destruct (generate (m + n) (timestamp e) g1) as [es g2].
    destruct (generate m (timestamp e) g1) as [es' g2'].
    cbn [fst] in *. exists rest. now rewrite Hrest.
Qed.






(** X7: on a non-empty vector [getRandomElement] returns one of its
    elements, so the index it draws is never out of bounds, and it advances
    the engine by exactly the one draw of the index. *)
Theorem getRandomElement_member (vec : list string) (g : engine) :
  vec <> [] ->
  In (fst (getRandomElement vec g)) vec /\
  snd (getRandomElement vec g)
    = snd (uniform_int 0 (Z.of_nat (List.length vec) - 1) g).
Proof.
  intros Hvec. split.
  - now apply getRandomElement_In.
  - unfold Generator.getRandomElement, bind, ret.
    now destruct (uniform_int 0 (Z.of_nat (List.length vec) - 1) g).
Qed.

(** X8: the ip, user and action fields of every line the generator emits
    are members of the pools they are drawn from. *)
Theorem generated_fields_in_pools (count : nat) (g : engine) (line : string) :
  In line (lines count g) ->
  In (field 1 line) ip_addresses /\
  In (field 2 line) user_ids /\
  In (field 3 line) actions.
Proof.
  intros [e [He ->]]%lines_entries.
  destruct (entries_drawn engine uniform_int price_dist uniform_int_range _ _ _ He)
    as [before Hd].
  unfold field. rewrite (format_line_fields _ _ Hd). cbn [nth].
  repeat split; apply Hd.
Qed.

(** X9: the details of every line follow from its action: a symbol of the
    pool, a quantity from 10 to 500 and a price for TRADE_EXECUTE, the error
    code for FAILED_LOGIN, and Details:N/A for every other action. *)
Theorem generated_details_follow_action (count : nat) (g : engine) (line : string) :
  In line (lines count g) ->
  details_shape (field 3 line) (field 6 line).
Proof.
  intros [e [He ->]]%lines_entries.
  destruct (entries_drawn engine uniform_int price_dist uniform_int_range _ _ _ He)
    as [before Hd].
  unfold field. rewrite (format_line_fields _ _ Hd). cbn [nth].
  now apply (entries_details count g).
Qed.

(** X10: the timestamp of the line at position [i] (from 0) lies between
    [i + 1] and [5 * (i + 1)] seconds after 1672531200; in a run of at most
    100000 lines it stays below 1673031200, far inside the [long long]. *)
Theorem generated_timestamp_bounds (count : nat) (g : engine) (i : nat) :
  (i < count)%nat ->
  initialTimestamp + Z.of_nat (S i)
    <= nth i (map timestamp (entries count g)) 0
    <= initialTimestamp + 5 * Z.of_nat (S i) /\
  (Z.of_nat count <= numberOfLinesToGenerate ->
   nth i (map timestamp (entries count g)) 0 <= 1673031200 < 2 ^ 63).
Proof.
  intros Hi.
  pose proof (generate_length engine uniform_int price_dist count initialTimestamp g)
    as Hlen.
  destruct (entries count g !! i) as [e|] eqn:He.
  - pose proof (chain_lookup initialTimestamp _ i e
                  (generate_chain engine uniform_int price_dist uniform_int_range
                     count initialTimestamp g) He) as Hb.
    rewrite (nth_map_lookup timestamp _ i e 0 He). split; [exact Hb|].
    unfold numberOfLinesToGenerate, initialTimestamp in *. lia.
  - apply lookup_ge_None in He. unfold Generator.entries in He. lia.
Qed.

(** X11: no two lines of a generated file are equal. *)
Theorem generated_lines_distinct (count : nat) (g : engine) :
  List.NoDup (lines count g).
Proof.
  apply (List.NoDup_map_inv (field 0)). rewrite lines_first_field.
  apply NoDup_map_dec.
  pose proof (steps_sorted _ _
                (chain_steps _ _
                   (generate_chain engine uniform_int price_dist uniform_int_range
                      count initialTimestamp g))) as Hs.
  apply StronglySorted_inv in Hs as [Hs _]. now apply sorted_NoDup.
Qed.


(** X13: generating more lines from the same seed only extends the file:
    the lines of a run are the first lines of every longer run. *)
Theorem generated_lines_extend (m n : nat) (g : engine) :
  exists rest : list string, lines (m + n) g = (lines m g ++ rest)%list.
Proof.
  destruct (generate_prefix m n initialTimestamp g) as [rest Hrest].
  exists (map format_line rest).
  unfold Generator.lines, Generator.entries. now rewrite Hrest, map_app.
Qed.

(** X14: run on a file the generator wrote, the analyzer returns 0, reads
    back exactly the lines written, and reports as many lines as the
    generating loop made iterations. *)
Theorem analyzer_reads_generated_file
    (fs : Analyzer.filesystem) (p path : string) (count : nat) (g : engine) :
  fs path = Some (write_lines (entries count g)) ->
  Analyzer.exit_code (Analyzer.main fs {| Analyzer.prog := p; Analyzer.args := [path] |}) = 0 /\
  Analyzer.lines_read
    (Analyzer.trace (Analyzer.main fs {| Analyzer.prog := p; Analyzer.args := [path] |}))
    = lines count g /\
  In ("Total lines processed: " ++ dec (Z.of_nat count) ++ endl)
     (Analyzer.stdout_text
        (Analyzer.trace (Analyzer.main fs {| Analyzer.prog := p; Analyzer.args := [path] |}))).
Proof.
  intros Hfs. rewrite (main_opened fs p path _ Hfs).
  destruct (analyzer_reads_generated engine uniform_int price_dist uniform_int_range
              count g) as [Hlines Hlen].
  unfold Analyzer.exit_code, Analyzer.trace, Analyzer.stdout_text. cbn [fst snd].
  rewrite !lines_read_app, lines_read_getlines, !omap_app.
  rewrite omap_getlines by reflexivity.
  rewrite Hlines, Hlen. split; [reflexivity|]. split.
  - cbn. apply app_nil_r.
  - cbn. tauto.
Qed.

End GeneratorMore.

(** *** The same on the concrete engine *)

Section GeneratorMoreRuns.
Import Text Generator.

Local Abbreviation lcg_lines := (lines Z lcg_uniform_int lcg_price).
Local Abbreviation lcg_entries := (entries Z lcg_uniform_int lcg_price).
Local Abbreviation lcg_main := (main Z lcg_uniform_int lcg_price).

Lemma getRandomElement_member_witness :
  trade_symbols <> [] /\
  In (fst (getRandomElement Z lcg_uniform_int trade_symbols 7)) trade_symbols /\
  snd (getRandomElement Z lcg_uniform_int trade_symbols 7)
    = snd (lcg_uniform_int 0 (Z.of_nat (List.length trade_symbols) - 1) 7).
Proof.
  assert (H : trade_symbols <> []) by discriminate.
  split; [exact H|].
  exact (getRandomElement_member Z lcg_uniform_int lcg_uniform_int_range
           trade_symbols 7 H).
Defined.

Lemma generated_fields_in_pools_witness :
  In first_line (lcg_lines 3 42) /\
  In (field 1 first_line) ip_addresses /\
  In (field 2 first_line) user_ids /\
  In (field 3 first_line) actions.
Proof.
  split; [exact first_line_generated|].
  exact (generated_fields_in_pools Z lcg_uniform_int lcg_price lcg_uniform_int_range
           3 42 first_line first_line_generated).
Defined.

Lemma generated_details_follow_action_witness :
  In first_line (lcg_lines 3 42) /\
  details_shape (field 3 first_line) (field 6 first_line).
Proof.
  split; [exact first_line_generated|].
  exact (generated_details_follow_action Z lcg_uniform_int lcg_price
           lcg_uniform_int_range 3 42 first_line first_line_generated).
Defined.

Lemma generated_timestamp_bounds_witness :
  (2 < 3)%nat /\
  initialTimestamp + Z.of_nat 3
    <= nth 2 (map timestamp (lcg_entries 3 42)) 0
    <= initialTimestamp + 5 * Z.of_nat 3 /\
  (Z.of_nat 3 <= numberOfLinesToGenerate ->
   nth 2 (map timestamp (lcg_entries 3 42)) 0 <= 1673031200 < 2 ^ 63).
Proof.
  assert (H : (2 < 3)%nat) by lia.
  split; [exact H|].
  exact (generated_timestamp_bounds Z lcg_uniform_int lcg_price lcg_uniform_int_range
           3 42 2 H).
Defined.

Lemma generated_lines_distinct_witness :
  (forall a b g : Z, a <= b -> a <= fst (lcg_uniform_int a b g) <= b) /\
  List.NoDup (lcg_lines 3 42).
Proof.
  split; [exact lcg_uniform_int_range|].
  exact (generated_lines_distinct Z lcg_uniform_int lcg_price lcg_uniform_int_range
           3 42).
Defined.


Lemma analyzer_reads_generated_file_witness :
  (fun _ : string => Some lcg_sample_log) "sample.log"
    = Some (write_lines (lcg_entries 3 42)) /\
  Analyzer.exit_code
    (Analyzer.main (fun _ : string => Some lcg_sample_log)
       {| Analyzer.prog := "analyzer"; Analyzer.args := ["sample.log"] |}) = 0 /\
  Analyzer.lines_read
    (Analyzer.trace
       (Analyzer.main (fun _ : string => Some lcg_sample_log)
          {| Analyzer.prog := "analyzer"; Analyzer.args := ["sample.log"] |}))
    = lcg_lines 3 42 /\
  In ("Total lines processed: " ++ dec (Z.of_nat 3) ++ endl)
     (Analyzer.stdout_text
        (Analyzer.trace
           (Analyzer.main (fun _ : string => Some lcg_sample_log)
              {| Analyzer.prog := "analyzer"; Analyzer.args := ["sample.log"] |}))).
Proof.
  split; [reflexivity|].
  apply (analyzer_reads_generated_file Z lcg_uniform_int lcg_price
           lcg_uniform_int_range (fun _ : string => Some lcg_sample_log)
           "analyzer" "sample.log" 3 42).
  reflexivity.
Defined.

End GeneratorMoreRuns.

(** ** The fields of a generated line, for a reader of the file *)

Section GeneratedFields.
Import Text Generator.

Variable engine : Type.
Variable uniform_int : Z -> Z -> engine -> Z * engine.
Variable price_dist : engine -> N * engine.
Hypothesis uniform_int_range :
  forall (a b : Z) (g : engine), a <= b -> a <= fst (uniform_int a b g) <= b.

Local Abbreviation entries := (entries engine uniform_int price_dist).
Local Abbreviation lines := (lines engine uniform_int price_dist).

Lemma pool_not_empty (pool : list string) (s : string) :
  forallb (fun x => negb (String.eqb x EmptyString)) pool = true ->
  In s pool -> s <> EmptyString.
Proof.
  rewrite forallb_forall. intros H Hin. specialize (H s Hin).
  apply negb_true_iff in H. now apply String.eqb_neq.
Qed.

Lemma append_not_empty_l (a b : string) : a <> EmptyString -> a ++ b <> EmptyString.
Proof. destruct a; [contradiction|discriminate]. Qed.

Lemma fixed2_not_empty (h : N) : fixed2 h <> EmptyString.
Proof. unfold fixed2. apply append_not_empty_l, dec_not_empty. Qed.

Lemma details_shape_not_empty (action details : string) :
  details_shape action details -> details <> EmptyString.
Proof.
  unfold details_shape. destruct (String.eqb action "TRADE_EXECUTE").
  - intros [symbol [quantity [price [_ [_ ->]]]]]. discriminate.
  - destruct (String.eqb action "FAILED_LOGIN"); intros ->; discriminate.
Qed.

Lemma details_shape_error_code (action details : string) :
  details_shape action details ->
  (details = "ErrorCode:401_UNAUTHORIZED" <-> action = "FAILED_LOGIN").
Proof.
  unfold details_shape.
  destruct (String.eqb_spec action "TRADE_EXECUTE") as [->|Htrade].
  - intros [symbol [quantity [price [_ [_ ->]]]]].
    split; intros H; discriminate H.
  - destruct (String.eqb_spec action "FAILED_LOGIN") as [->|Hfailed]; intros ->.
    + split; reflexivity.
    + split; [discriminate|contradiction].
Qed.

(** The tokens of a details field and the key and value of each. *)
Lemma details_shape_tokens (action details : string) :
  details_shape action details ->
  Forall (fun token =>
            exists key value : string,
              split_first ":" token = Some (key, value) /\
              In key ["Symbol"; "Quantity"; "Price"; "ErrorCode"; "Details"] /\
              value <> EmptyString)
         (split "," details).
Proof.
  unfold details_shape. destruct (String.eqb action "TRADE_EXECUTE").
  - intros [symbol [quantity [price [Hsym [Hq ->]]]]].
    assert (Hs : free_of "," symbol = true)
      by (apply (pool_free "," trade_symbols); [reflexivity|assumption]).
    assert (Hne : symbol <> EmptyString)
      by (apply (pool_not_empty trade_symbols); [reflexivity|assumption]).
    change ("Symbol:" ++ symbol ++ ",Quantity:" ++ dec quantity ++ ",Price:" ++ fixed2 price)
      with ("Symbol:" ++ symbol ++ String "," ("Quantity:" ++ dec quantity
              ++ String "," ("Price:" ++ fixed2 price))).
    rewrite <- (append_assoc "Symbol:" symbol).
    rewrite split_app by (rewrite free_of_app, Hs; reflexivity).
    rewrite <- (append_assoc "Quantity:" (dec quantity)).
    rewrite split_app
      by (rewrite free_of_app, dec_free_of; [reflexivity|reflexivity|discriminate]).
    rewrite split_free
      by (rewrite free_of_app, fixed2_free_of; [reflexivity|reflexivity|discriminate]).
    repeat constructor.
    + exists "Symbol", symbol. repeat split; [cbn; tauto|assumption].
    + exists "Quantity", (dec quantity). repeat split; [cbn; tauto|apply dec_not_empty].
    + exists "Price", (fixed2 price). repeat split; [cbn; tauto|apply fixed2_not_empty].
  - destruct (String.eqb action "FAILED_LOGIN"); intros ->; repeat constructor.
    + exists "ErrorCode", "401_UNAUTHORIZED". repeat split; [cbn; tauto|discriminate].
    + exists "Details", "N/A". repeat split; [cbn; tauto|discriminate].
Qed.

Lemma line_fields (count : nat) (g : engine) (line : string) :
  In line (lines count g) ->
  exists (before : Z) (e : entry),
    drawn before e /\ details_shape (action e) (details e) /\
    split pipe line =
      [dec (timestamp e); ip e; user e; action e; status e;
       dec (latency e) ++ "ms"; details e].
Proof.
  intros [e [He ->]]%lines_entries.
  destruct (entries_drawn engine uniform_int price_dist uniform_int_range _ _ _ He)
    as [before Hd].
  exists before, e. split; [exact Hd|]. split.
  - exact (entries_details engine uniform_int price_dist uniform_int_range count g e He).
  - exact (format_line_fields _ _ Hd).
Qed.

(** X15: none of the seven fields of a generated line is empty. *)
Theorem generated_fields_not_empty (count : nat) (g : engine) (line : string) :
  In line (lines count g) ->
  Forall (fun f => f <> EmptyString) (split pipe line).
Proof.
  intros [before [e [Hd [Hshape ->]]]]%line_fields.
  repeat constructor.
  - apply dec_not_empty.
  - apply (pool_not_empty ip_addresses); [reflexivity|apply Hd].
  - apply (pool_not_empty user_ids); [reflexivity|apply Hd].
  - apply (pool_not_empty actions); [reflexivity|apply Hd].
  - apply (pool_not_empty statuses); [reflexivity|apply Hd].
  - apply append_not_empty_l, dec_not_empty.
  - exact (details_shape_not_empty _ _ Hshape).
Qed.

(** X16: the details of a generated line are the error code exactly on the
    lines whose action is FAILED_LOGIN. *)
Theorem generated_error_code_iff_failed_login
    (count : nat) (g : engine) (line : string) :
  In line (lines count g) ->
  (field 6 line = "ErrorCode:401_UNAUTHORIZED" <-> field 3 line = "FAILED_LOGIN").
Proof.
  intros [before [e [Hd [Hshape Hsplit]]]]%line_fields.
  unfold field. rewrite Hsplit. cbn [nth].
  exact (details_shape_error_code _ _ Hshape).
Qed.

(** X17: split on commas, the details of a generated line are tokens of the
    form key:value, with one of the keys Symbol, Quantity, Price, ErrorCode,
    Details before the first colon and a non-empty value after it. *)
Theorem generated_details_tokens (count : nat) (g : engine) (line : string) :
  In line (lines count g) ->
  Forall (fun token =>
            exists key value : string,
              split_first ":" token = Some (key, value) /\
              In key ["Symbol"; "Quantity"; "Price"; "ErrorCode"; "Details"] /\
              value <> EmptyString)
         (split "," (field 6 line)).
Proof.
  intros [before [e [Hd [Hshape Hsplit]]]]%line_fields.
  unfold field. rewrite Hsplit. cbn [nth].
  exact (details_shape_tokens _ _ Hshape).
Qed.

End GeneratedFields.

Section GeneratedFieldsRuns.
Import Text Generator.

Local Abbreviation lcg_lines := (lines Z lcg_uniform_int lcg_price).

Lemma generated_fields_not_empty_witness :
  In first_line (lcg_lines 3 42) /\
  Forall (fun f => f <> EmptyString) (split pipe first_line).
Proof.
  split; [exact first_line_generated|].
  exact (generated_fields_not_empty Z lcg_uniform_int lcg_price lcg_uniform_int_range
           3 42 first_line first_line_generated).
Defined.

Lemma generated_error_code_iff_failed_login_witness :
  In first_line (lcg_lines 3 42) /\
  (field 6 first_line = "ErrorCode:401_UNAUTHORIZED" <-> field 3 first_line = "FAILED_LOGIN").
Proof.
  split; [exact first_line_generated|].
  exact (generated_error_code_iff_failed_login Z lcg_uniform_int lcg_price
           lcg_uniform_int_range 3 42 first_line first_line_generated).
Defined.

Lemma generated_details_tokens_witness :
  In first_line (lcg_lines 3 42) /\
  Forall (fun token =>
            exists key value : string,
              split_first ":" token = Some (key, value) /\
              In key ["Symbol"; "Quantity"; "Price"; "ErrorCode"; "Details"] /\
              value <> EmptyString)
         (split "," (field 6 first_line)).
Proof.
  split; [exact first_line_generated|].
  exact (generated_details_tokens Z lcg_uniform_int lcg_price lcg_uniform_int_range
           3 42 first_line first_line_generated).
Defined.

End GeneratedFieldsRuns.
